(** * gesture_launcher: debouncing, cooldown and action dispatch

    A shallow embedding of [gesture_launcher.py].  The file follows the
    source top-down: configuration tables, the utilities ([speak],
    [find_executable_for_key], [launch_program_by_key],
    [perform_mapped_action]), the finger counting function and the body of
    the main loop.

    Modelling conventions.
    - Python [int] is [Z]; list indices that are non-negative literals in
      the source are [nat].
    - Time stamps and landmark coordinates are Python floats.  They are
      modelled by the rational numbers [Q] they denote: comparison is
      exact, rounding of [now - last_trigger_time] is not modelled, and
      there is no NaN and no infinity.  An attribute of a landmark may
      also hold any other object; how Python compares such objects is
      part of [World].
    - Everything outside the interpreter (file system, PATH, process
      creation, web browser, speech engine, [sys.platform]) is a field of
      the record [World].  Calls with an effect are logged as [event]s.
    - A Python function that may raise is a computation in the monad [M],
      whose result is [Return v] or [Raise msg]. *)

From Stdlib Require Import ZArith QArith Lqa List String Bool Lia.
Import ListNotations.
Local Open Scope Z_scope.
Local Open Scope string_scope.

(** ** Python values used by the program *)

(** What [perform_mapped_action] and [launch_program_by_key] can return:
    [True], [False], or [None] when control falls off the end. *)
Inductive pyval : Type :=
| PyBool (b : bool)
| PyNone.

Definition truthy (v : pyval) : bool :=
  match v with
  | PyBool b => b
  | PyNone => false
  end.

(** Truth value of a [str]: the empty string is false. *)
Definition str_truthy (s : string) : bool := negb (s =? "").

(** Truth value of an [Optional[str]] as tested by [if x:] and [x and ...]. *)
Definition opt_truthy (o : option string) : bool :=
  match o with
  | Some s => str_truthy s
  | None => false
  end.

(** [("action_type", param)] *)
Definition mapping_tuple : Type := (string * option string)%type.

(** ** Landmark coordinates *)

(** What the [x] or [y] attribute of a landmark holds: a float, or any
    other Python object, named here by its [repr]. *)
Inductive coord : Type :=
| Num (q : Q)
| Obj (repr : string).

(** ** The outside world and the log of effects *)

Record World : Type := {
  sys_platform : string;
  VOICE_AVAILABLE : bool;
  (** [os.path.isabs], [os.path.exists], [shutil.which] *)
  isabs : string -> bool;
  path_exists : string -> bool;
  which : string -> option string;
  (** [subprocess.Popen argv]: [Some msg] when the call raises.  The first
      argument counts the [Popen] calls already made in the current
      dispatch, so that a retry of the same command may end differently. *)
  Popen_fault : nat -> list string -> option string;
  (** [webbrowser.open url], taken as one call of the library: whatever
      the library does inside it (the processes it starts included) is
      not itemised *)
  browser_fault : string -> option string;
  (** [tts_engine.say text] and [tts_engine.runAndWait ()] *)
  say_fault : string -> option string;
  runAndWait_fault : string -> option string;
  (** [a < b] and [a > b] on coordinates that are not both floats,
      followed by the truth test of the conditional expression: [Some t]
      for the truth value [t], [None] when an [Exception] is raised (as
      by [None < 0.5]).  Python decides this from the classes of the two
      objects; the program has no say in it. *)
  lt_object : coord -> coord -> option bool;
  gt_object : coord -> coord -> option bool
}.

Inductive event : Type :=
| EvPrint (msg : string)
| EvBrowser (url : string) (ok : bool)
(** a call of [subprocess.Popen] made by this program (not one made
    inside a library call) *)
| EvPopen (argv : list string) (ok : bool)
| EvSay (text : string) (ok : bool)
| EvRunAndWait (ok : bool)
(** bookkeeping of the main loop: [perform_mapped_action] was called with
    this tuple, and it returned this value *)
| EvCall (m : mapping_tuple)
| EvRet (v : pyval).

Inductive result (A : Type) : Type :=
| Return (a : A)
| Raise (e : string).
Arguments Return {A} a.
Arguments Raise {A} e.

(** A computation reads the log written so far and extends it. *)
Definition M (A : Type) : Type := list event -> result A * list event.

Definition ret {A} (a : A) : M A := fun l => (Return a, l).

Definition bind {A B} (m : M A) (f : A -> M B) : M B :=
  fun l =>
    match m l with
    | (Return a, l') => f a l'
    | (Raise e, l') => (Raise e, l')
    end.

(** [try: m except Exception as e: h e] *)
Definition try_except {A} (m : M A) (h : string -> M A) : M A :=
  fun l =>
    match m l with
    | (Return a, l') => (Return a, l')
    | (Raise e, l') => h e l'
    end.

Definition emit (e : event) : M unit := fun l => (Return tt, (l ++ [e])%list).

Notation "x <- m ;; k" := (bind m (fun x => k))
  (at level 61, m at next level, right associativity).
Notation "m ;; k" := (bind m (fun _ => k))
  (at level 61, right associativity).

Definition print (msg : string) : M unit := emit (EvPrint msg).

Definition is_popen (e : event) : bool :=
  match e with EvPopen _ _ => true | _ => false end.

Definition is_call (e : event) : bool :=
  match e with EvCall _ => true | _ => false end.

Definition popen_calls (l : list event) : nat := List.length (filter is_popen l).

Section External.
Variable W : World.

Definition Popen (argv : list string) : M unit :=
  fun l =>
    match Popen_fault W (popen_calls l) argv with
    | None => (Return tt, (l ++ [EvPopen argv true])%list)
    | Some e => (Raise e, (l ++ [EvPopen argv false])%list)
    end.

Definition webbrowser_open (url : string) : M unit :=
  fun l =>
    match browser_fault W url with
    | None => (Return tt, (l ++ [EvBrowser url true])%list)
    | Some e => (Raise e, (l ++ [EvBrowser url false])%list)
    end.

Definition tts_say (text : string) : M unit :=
  fun l =>
    match say_fault W text with
    | None => (Return tt, (l ++ [EvSay text true])%list)
    | Some e => (Raise e, (l ++ [EvSay text false])%list)
    end.

Definition tts_runAndWait (text : string) : M unit :=
  fun l =>
    match runAndWait_fault W text with
    | None => (Return tt, (l ++ [EvRunAndWait true])%list)
    | Some e => (Raise e, (l ++ [EvRunAndWait false])%list)
    end.
End External.

(** ** Configuration *)

Definition program_table : Type := list (string * list (string * list string)).

Record Config : Type := {
  STABLE_FRAMES : Z;
  COOLDOWN_SECONDS : Q;
  APP_MAPPING : list (Z * mapping_tuple);
  PROGRAM_LOOKUP : program_table
}.

(** [d.get(k, default)] on an insertion-ordered dict. *)
Fixpoint dict_get {K V} (eqb : K -> K -> bool) (d : list (K * V)) (k : K)
    (default : V) : V :=
  match d with
  | [] => default
  | (k', v) :: rest => if eqb k' k then v else dict_get eqb rest k default
  end.

(** [s.startswith(p)] *)
Definition startswith (s p : string) : bool := String.prefix p s.

Definition source_APP_MAPPING (W : World) : list (Z * mapping_tuple) :=
  [ (0, ("noop", None));
    (1, ("open_url", Some "https://www.youtube.com/"));
    (2, ("open_program", Some "chrome"));
    (3, ("open_program", Some "code"));
    (4, ("open_program",
         Some (if startswith (sys_platform W) "win" then "explorer" else "nautilus")));
    (5, ("open_program", None)) ].

Definition source_PROGRAM_LOOKUP : program_table :=
  [ ("chrome",
     [ ("win32", [ "chrome";
                   "C:\Program Files\Google\Chrome\Application\chrome.exe";
                   "C:\Program Files (x86)\Google\Chrome\Application\chrome.exe" ]);
       ("darwin", [ "/Applications/Google Chrome.app/Contents/MacOS/Google Chrome" ]);
       ("linux", [ "google-chrome"; "chrome"; "chromium"; "chromium-browser" ]) ]);
    ("code",
     [ ("win32", [ "code" ]);
       ("darwin", [ "code";
                    "/Applications/Visual Studio Code.app/Contents/Resources/app/bin/code" ]);
       ("linux", [ "code" ]) ]);
    ("explorer",
     [ ("win32", [ "explorer" ]);
       ("darwin", [ "open" ]);
       ("linux", [ "xdg-open"; "nautilus"; "nemo" ]) ]) ].

Definition source_config (W : World) : Config :=
  {| STABLE_FRAMES := 6;
     COOLDOWN_SECONDS := 3;
     APP_MAPPING := source_APP_MAPPING W;
     PROGRAM_LOOKUP := source_PROGRAM_LOOKUP |}.

Definition FINGER_TIPS : list nat := [4; 8; 12; 16; 20]%nat.

(** ** Utilities *)

Section Utilities.
Variable cfg : Config.
Variable W : World.

Definition speak (text : string) : M unit :=
  if negb (VOICE_AVAILABLE W) then ret tt
  else
    try_except
      (tts_say W text ;; tts_runAndWait W text)
      (fun _ => ret tt).

(** The body shared by both candidate loops of [find_executable_for_key]:
    [Some r] when the loop returns [r] at one of these candidates. *)
Fixpoint scan_candidates (candidates : list string) : option string :=
  match candidates with
  | [] => None
  | c :: rest =>
      if isabs W c && path_exists W c then Some c
      else if opt_truthy (which W c) then which W c
      else scan_candidates rest
  end.

(** [for plat_key, candidates in lookup.items(): if plat.startswith(plat_key): ...] *)
Fixpoint scan_platform (plat : string) (items : list (string * list string))
  : option string :=
  match items with
  | [] => None
  | (plat_key, candidates) :: rest =>
      if startswith plat plat_key then
        match scan_candidates candidates with
        | Some r => Some r
        | None => scan_platform plat rest
        end
      else scan_platform plat rest
  end.

(** [for candidates in lookup.values(): ...] *)
Fixpoint scan_all (values : list (list string)) : option string :=
  match values with
  | [] => None
  | candidates :: rest =>
      match scan_candidates candidates with
      | Some r => Some r
      | None => scan_all rest
      end
  end.

Definition find_executable_for_key (key : string) : option string :=
  let plat := sys_platform W in
  let lookup := dict_get String.eqb (PROGRAM_LOOKUP cfg) key [] in
  match scan_platform plat lookup with
  | Some r => Some r
  | None => scan_all (map snd lookup)
  end.

Definition launch_program_by_key (key : string) : M pyval :=
  let cmd := find_executable_for_key key in
  match cmd with
  | Some c =>
      if str_truthy c then
        try_except
          (Popen W [c] ;; ret (PyBool true))
          (fun e =>
             try_except
               (if sys_platform W =? "darwin" then
                  Popen W ["open"; "-a"; key] ;; ret (PyBool true)
                else if startswith (sys_platform W) "linux" then
                  Popen W [c] ;; ret (PyBool true)
                else ret PyNone)
               (fun _ =>
                  print ("[WARN] Could not launch " ++ key ++ ": " ++ e) ;;
                  ret (PyBool false)))
      else
        print ("[INFO] No executable found for '" ++ key ++ "'.") ;;
        ret (PyBool false)
  | None =>
      print ("[INFO] No executable found for '" ++ key ++ "'.") ;;
      ret (PyBool false)
  end.

(** The string held by a parameter that has passed the test [and param]. *)
Definition param_str (param : option string) : string :=
  match param with
  | Some s => s
  | None => ""
  end.

(** The branch [if action == "open_program":] for a parameter other than
    [None]. *)
Definition open_program_branch (param : string) : M pyval :=
  if isabs W param && path_exists W param then
    try_except
      (Popen W [param] ;; ret (PyBool true))
      (fun e =>
         print ("[WARN] Couldn't launch " ++ param ++ ": " ++ e) ;;
         ret (PyBool false))
  else
    let exe := which W param in
    (* [Some v]: the [if exe:] block executed [return v] *)
    returned <-
      (if opt_truthy exe then
         try_except
           (Popen W [param_str exe] ;; ret (Some (PyBool true)))
           (fun e =>
              print ("[WARN] Couldn't launch " ++ param_str exe ++ ": " ++ e) ;;
              ret None)
       else ret None) ;;
    match returned with
    | Some v => ret v
    | None =>
        started <- launch_program_by_key param ;;
        ret started
    end.

Definition perform_mapped_action (mapping : mapping_tuple) : M pyval :=
  let '(action, param) := mapping in
  if action =? "noop" then ret (PyBool false)
  else if (action =? "open_url") && opt_truthy param then
    webbrowser_open W (param_str param) ;;
    ret (PyBool true)
  else if action =? "open_program" then
    match param with
    | None =>
        print "[INFO] open_program mapping has no program specified." ;;
        ret (PyBool false)
    | Some p => open_program_branch p
    end
  else if (action =? "say_text") && opt_truthy param then
    speak (param_str param) ;;
    ret (PyBool true)
  else
    print ("[WARN] Unknown action '" ++ action ++ "' or missing parameter.") ;;
    ret (PyBool false).
End Utilities.

(** ** Finger counting logic *)

(** An element of [hand_landmarks.landmark]: an object with attributes [x]
    and [y], or an object that lacks one of them. *)
Inductive lmpt : Type :=
| Landmark (x y : coord)
| NoCoords.

Definition Qltb (p q : Q) : bool :=
  match (p ?= q)%Q with
  | Lt => true
  | _ => false
  end.

(** The truth value of [a < b] and of [a > b]; [None] stands for a raised
    [Exception].  Two floats are compared as numbers; for any other pair
    of objects Python's answer is read from the world. *)
Definition py_lt (W : World) (a b : coord) : option bool :=
  match a, b with
  | Num p, Num q => Some (Qltb p q)
  | _, _ => lt_object W a b
  end.

Definition py_gt (W : World) (a b : coord) : option bool :=
  match a, b with
  | Num p, Num q => Some (Qltb q p)
  | _, _ => gt_object W a b
  end.

(** [[(lmpt.x, lmpt.y) for lmpt in hand_landmarks.landmark]] *)
Fixpoint to_pairs (landmark : list lmpt) : result (list (coord * coord)) :=
  match landmark with
  | [] => Return []
  | Landmark x y :: rest =>
      match to_pairs rest with
      | Return ps => Return ((x, y) :: ps)
      | Raise e => Raise e
      end
  | NoCoords :: _ => Raise "AttributeError"
  end.

Definition obind {A B} (o : option A) (f : A -> option B) : option B :=
  match o with
  | Some a => f a
  | None => None
  end.

Definition bit (b : bool) : Z := if b then 1 else 0.

Section Fingers.
Variable W : World.
Variable lm : list (coord * coord).

(** [lm[i]]; [None] stands for a raised [IndexError]. *)
Definition item (i : nat) : option (coord * coord) := nth_error lm i.

Definition tip (i : nat) : nat := nth i FINGER_TIPS 0%nat.

(** The first [try] block; [None] when it raises before appending. *)
Definition thumb_try (hand_label : option string) : option Z :=
  obind (item (tip 0)) (fun p4 =>
  let tip_x := fst p4 in
  obind (item (tip 0 - 1)) (fun p3 =>
  let ip_x := fst p3 in
  let hand_label :=
    match hand_label with
    | None => "Right"
    | Some l => l
    end in
  if hand_label =? "Right" then
    obind (py_lt W tip_x ip_x) (fun b => Some (bit b))
  else
    obind (py_gt W tip_x ip_x) (fun b => Some (bit b)))).

(** The [try] block of the loop over [range(1, 5)]. *)
Definition finger_try (i : nat) : option Z :=
  obind (item (tip i)) (fun pt =>
  let tip_y := snd pt in
  obind (item (tip i - 2)) (fun pp =>
  let pip_y := snd pp in
  obind (py_lt W tip_y pip_y) (fun b => Some (bit b)))).

(** [except Exception: fingers.append(0)] *)
Definition or_zero (o : option Z) : Z :=
  match o with
  | Some b => b
  | None => 0
  end.

Definition fingers_of (hand_label : option string) : list Z :=
  or_zero (thumb_try hand_label)
    :: map (fun i => or_zero (finger_try i)) [1; 2; 3; 4]%nat.
End Fingers.

(** [sum(fingers)] *)
Definition sum (l : list Z) : Z := fold_left Z.add l 0.

Definition count_fingers_from_landmarks (W : World)
    (hand_landmarks : list lmpt) (hand_label : option string)
  : result (Z * list Z) :=
  match to_pairs hand_landmarks with
  | Raise e => Raise e
  | Return lm =>
      let fingers := fingers_of W lm hand_label in
      Return (sum fingers, fingers)
  end.

(** ** Main loop *)

Record State : Type := {
  last_trigger_time : Q;
  stable_counter : Z;
  last_count : option Z
}.

Definition initial_state : State :=
  {| last_trigger_time := 0; stable_counter := 0; last_count := None |}.

(** What [hands.process] found in the frame: [results.multi_hand_landmarks]
    is empty, or its first hand with the label read from
    [results.multi_handedness]. *)
Inductive frame : Type :=
| NoHand
| Hand (hand_landmarks : list lmpt) (hand_label : option string).

(** [finger_count == last_count] *)
Definition count_eqb (finger_count : Z) (last : option Z) : bool :=
  match last with
  | Some c => (finger_count =? c)%Z
  | None => false
  end.

Section MainLoop.
Variable cfg : Config.
Variable W : World.

(** Stability logic, when a hand is seen. *)
Definition stability_logic (finger_count : Z) (s : State) : State :=
  if count_eqb finger_count (last_count s) then
    {| last_trigger_time := last_trigger_time s;
       stable_counter := stable_counter s + 1;
       last_count := last_count s |}
  else
    {| last_trigger_time := last_trigger_time s;
       stable_counter := 1;
       last_count := Some finger_count |}.

(** The [else] branch: no hand detected. *)
Definition no_hand (s : State) : State :=
  {| last_trigger_time := last_trigger_time s;
     stable_counter := 0;
     last_count := None |}.

(** One update of [stable_counter] and [last_count]. *)
Definition debounce (count : option Z) (s : State) : State :=
  match count with
  | Some finger_count => stability_logic finger_count s
  | None => no_hand s
  end.

(** [(now - last_trigger_time) >= COOLDOWN_SECONDS] *)
Definition cooldown_passed (now last : Q) : bool :=
  Qle_bool (COOLDOWN_SECONDS cfg) (now - last).

(** [stable_counter >= STABLE_FRAMES] *)
Definition is_stable (s : State) : bool :=
  (STABLE_FRAMES cfg <=? stable_counter s)%Z.

(** Optional voice feedback after an action. *)
Definition feedback (mapping : mapping_tuple) : M unit :=
  if fst mapping =? "open_url" then speak W "Opening website."
  else if fst mapping =? "open_program" then speak W "Opening program."
  else if fst mapping =? "say_text" then speak W (param_str (snd mapping))
  else speak W "Action performed.".

(** Trigger only if stable for the required frames and cooldown passed. *)
Definition trigger (finger_count : Z) (now : Q) (s : State) : M State :=
  if is_stable s && cooldown_passed now (last_trigger_time s) then
    let mapping :=
      dict_get Z.eqb (APP_MAPPING cfg) finger_count ("noop", None) in
    emit (EvCall mapping) ;;
    acted <- perform_mapped_action cfg W mapping ;;
    emit (EvRet acted) ;;
    if truthy acted then
      feedback mapping ;;
      ret {| last_trigger_time := now;
             stable_counter := stable_counter s;
             last_count := last_count s |}
    else ret s
  else ret s.

(** The state-changing part of one iteration, given the finger count of
    the frame ([None]: no hand) and the value of [time.time ()]. *)
Definition tick (count : option Z) (now : Q) (s : State) : M State :=
  match count with
  | Some finger_count => trigger finger_count now (stability_logic finger_count s)
  | None => ret (no_hand s)
  end.

(** One iteration of the [while] loop from the detection result on. *)
Definition main_step (f : frame) (now : Q) (s : State) : M State :=
  match f with
  | NoHand => tick None now s
  | Hand hand_landmarks hand_label =>
      match count_fingers_from_landmarks W hand_landmarks hand_label with
      | Return (finger_count, _) => tick (Some finger_count) now s
      | Raise e => fun l => (Raise e, l)
      end
  end.
End MainLoop.

(** Runs the loop body over a list of frames' counts and clock readings,
    each with the world it meets; yields the final state and the log of
    every iteration, or stops at the iteration that raised. *)
Fixpoint run (cfg : Config) (ticks : list (World * option Z * Q)) (s : State)
  : result State * list (list event) :=
  match ticks with
  | [] => (Return s, [])
  | (W, count, now) :: rest =>
      match tick cfg W count now s [] with
      | (Return s', log) =>
          let (r, logs) := run cfg rest s' in (r, log :: logs)
      | (Raise e, log) => (Raise e, [log])
      end
  end.

(** ** Vocabulary of the statements *)

Definition is_mark (e : event) : bool :=
  match e with
  | EvCall _ | EvRet _ => true
  | _ => false
  end.

(** No bookkeeping event of the main loop occurs in [d]. *)
Definition no_marks (d : list event) : Prop :=
  Forall (fun e => is_mark e = false) d.

(** [m] extends the log it is given by events other than [EvCall] and
    [EvRet]. *)
Definition appends {A} (m : M A) : Prop :=
  forall l, exists d, snd (m l) = (l ++ d)%list /\ no_marks d.

Section TickOutcome.
Variables (cfg : Config) (W : World).
Variables (count : option Z) (now : Q) (s : State) (l : list event).

(** The test guarding the call of [perform_mapped_action]. *)
Definition guard : bool :=
  is_stable cfg (debounce count s)
  && cooldown_passed cfg now (last_trigger_time s).

Definition recorded : State :=
  {| last_trigger_time := now;
     stable_counter := stable_counter (debounce count s);
     last_count := last_count (debounce count s) |}.

Inductive tick_outcome : result State * list event -> Prop :=
| Tick_idle :
    count = None \/ guard = false ->
    tick_outcome (Return (debounce count s), l)
| Tick_raised c m e d :
    count = Some c -> guard = true ->
    m = dict_get Z.eqb (APP_MAPPING cfg) c ("noop", None) ->
    perform_mapped_action cfg W m (l ++ [EvCall m])%list
      = (Raise e, (l ++ EvCall m :: d)%list) ->
    no_marks d ->
    tick_outcome (Raise e, (l ++ EvCall m :: d)%list)
| Tick_failed c m v d :
    count = Some c -> guard = true ->
    m = dict_get Z.eqb (APP_MAPPING cfg) c ("noop", None) ->
    perform_mapped_action cfg W m (l ++ [EvCall m])%list
      = (Return v, (l ++ EvCall m :: d)%list) ->
    no_marks d -> truthy v = false ->
    tick_outcome (Return (debounce count s),
                  (l ++ EvCall m :: d ++ [EvRet v])%list)
| Tick_acted c m v d d' :
    count = Some c -> guard = true ->
    m = dict_get Z.eqb (APP_MAPPING cfg) c ("noop", None) ->
    perform_mapped_action cfg W m (l ++ [EvCall m])%list
      = (Return v, (l ++ EvCall m :: d)%list) ->
    no_marks d -> no_marks d' -> truthy v = true ->
    tick_outcome (Return recorded,
                  (l ++ EvCall m :: d ++ EvRet v :: d')%list).

End TickOutcome.

(** The debounce state after a sequence of per-frame counts. *)
Definition feed (counts : list (option Z)) (s : State) : State :=
  fold_left (fun st count => debounce count st) counts s.

(** The count seen by one entry of a [run]. *)
Definition count_of (t : World * option Z * Q) : option Z := snd (fst t).

(** The clock reading of one entry of a [run]. *)
Definition time_of (t : World * option Z * Q) : Q := snd t.

(** [perform_mapped_action] was called in the iteration that wrote [log]. *)
Definition dispatched (log : list event) : Prop :=
  exists m, In (EvCall m) log.

(** The call of that iteration returned a true value. *)
Definition acted (log : list event) : Prop :=
  exists v, In (EvRet v) log /\ truthy v = true.

(** ** Concrete worlds used in examples *)

(** A Linux machine with VS Code on the PATH, no speech engine, where
    every process starts and the browser call succeeds. *)
Definition linux_world : World :=
  {| sys_platform := "linux";
     VOICE_AVAILABLE := false;
     isabs := fun p => String.prefix "/" p;
     path_exists := fun p => p =? "/usr/bin/code";
     which := fun name => if name =? "code" then Some "/usr/bin/code" else None;
     Popen_fault := fun _ _ => None;
     browser_fault := fun _ => None;
     say_fault := fun _ => None;
     runAndWait_fault := fun _ => None;
     lt_object := fun _ _ => None;
     gt_object := fun _ _ => None |}.

(** The same machine with a speech engine, where every external call
    raises except [runAndWait]. *)
Definition faulty_world : World :=
  {| sys_platform := "linux";
     VOICE_AVAILABLE := true;
     isabs := fun p => String.prefix "/" p;
     path_exists := fun p => p =? "/usr/bin/code";
     which := fun name => if name =? "code" then Some "/usr/bin/code" else None;
     Popen_fault := fun _ _ => Some "OSError";
     browser_fault := fun _ => Some "webbrowser.Error";
     say_fault := fun _ => Some "RuntimeError";
     runAndWait_fault := fun _ => None;
     lt_object := fun _ _ => None;
     gt_object := fun _ _ => None |}.

(** A Mac with Chrome installed where the first process creation of a
    dispatch raises and the following ones succeed. *)
Definition mac_world : World :=
  {| sys_platform := "darwin";
     VOICE_AVAILABLE := false;
     isabs := fun p => String.prefix "/" p;
     path_exists :=
       fun p => p =? "/Applications/Google Chrome.app/Contents/MacOS/Google Chrome";
     which := fun _ => None;
     Popen_fault := fun n _ => match n with O => Some "OSError" | _ => None end;
     browser_fault := fun _ => None;
     say_fault := fun _ => None;
     runAndWait_fault := fun _ => None;
     lt_object := fun _ _ => None;
     gt_object := fun _ _ => None |}.

(** The Linux machine on a bad day: the first process creation of a
    dispatch raises and the following ones succeed. *)
Definition flaky_linux_world : World :=
  {| sys_platform := "linux";
     VOICE_AVAILABLE := false;
     isabs := fun p => String.prefix "/" p;
     path_exists := fun p => p =? "/usr/bin/code";
     which := fun name => if name =? "code" then Some "/usr/bin/code" else None;
     Popen_fault := fun n _ => match n with O => Some "OSError" | _ => None end;
     browser_fault := fun _ => None;
     say_fault := fun _ => None;
     runAndWait_fault := fun _ => None;
     lt_object := fun _ _ => None;
     gt_object := fun _ _ => None |}.

(** A world in which the objects met as coordinates are Python strings,
    named by their contents: two strings are ordered as Python orders
    them, and a string against a float raises. *)
Definition letters_world : World :=
  {| sys_platform := "linux";
     VOICE_AVAILABLE := false;
     isabs := fun p => String.prefix "/" p;
     path_exists := fun _ => false;
     which := fun _ => None;
     Popen_fault := fun _ _ => None;
     browser_fault := fun _ => None;
     say_fault := fun _ => None;
     runAndWait_fault := fun _ => None;
     lt_object :=
       fun a b =>
         match a, b with
         | Obj x, Obj y => Some (String.ltb x y)
         | _, _ => None
         end;
     gt_object :=
       fun a b =>
         match a, b with
         | Obj x, Obj y => Some (String.ltb y x)
         | _, _ => None
         end |}.

(** The state right after count 3 was dispatched at time 10. *)
Definition held_state : State :=
  {| last_trigger_time := 10; stable_counter := 6; last_count := Some 3 |}.

(** The descriptor looked up for a count, as in the main loop. *)
Definition mapping_of (cfg : Config) (finger_count : Z) : mapping_tuple :=
  dict_get Z.eqb (APP_MAPPING cfg) finger_count ("noop", None).

(** [m] never raises. *)
Definition returns {A} (m : M A) : Prop :=
  forall l, exists a l', m l = (Return a, l').

(** The tuples that reach the final warning of [perform_mapped_action]: an
    ["open_url"] or ["say_text"] whose parameter is [None] or empty, or an
    action type that is none of the four known ones. *)
Definition falls_through (mapping : mapping_tuple) : Prop :=
  let (action, param) := mapping in
  (action = "open_url" /\ (param = None \/ param = Some ""))
  \/ (action = "say_text" /\ (param = None \/ param = Some ""))
  \/ (action <> "noop" /\ action <> "open_url"
      /\ action <> "open_program" /\ action <> "say_text").

(** A configuration that maps two fingers to a spoken text. *)
Definition say_config : Config :=
  {| STABLE_FRAMES := 6;
     COOLDOWN_SECONDS := 3;
     APP_MAPPING := [ (2, ("say_text", Some "hello")) ];
     PROGRAM_LOOKUP := source_PROGRAM_LOOKUP |}.

(** ** Executable resolution as the specification words it

    The three strategies in order: the parameter as an absolute existing
    path; a PATH search for the parameter as a literal name; the lookup
    table, whose candidates are tried each as an absolute existing path
    and then by PATH search, the groups matching the platform first and
    then all groups. *)

Fixpoint first_found {A} (f : A -> option string) (l : list A) : option string :=
  match l with
  | [] => None
  | a :: rest =>
      match f a with
      | Some x => Some x
      | None => first_found f rest
      end
  end.

Definition spec_resolve_candidate (W : World) (c : string) : option string :=
  if isabs W c && path_exists W c then Some c else which W c.

Definition spec_table_candidates (cfg : Config) (W : World) (key : string)
  : list string :=
  let groups := dict_get String.eqb (PROGRAM_LOOKUP cfg) key [] in
  (List.concat
     (map snd (filter (fun g => startswith (sys_platform W) (fst g)) groups))
   ++ List.concat (map snd groups))%list.

Definition spec_resolve_executable (cfg : Config) (W : World) (param : string)
  : option string :=
  if isabs W param && path_exists W param then Some param
  else
    match which W param with
    | Some exe => Some exe
    | None => first_found (spec_resolve_candidate W) (spec_table_candidates cfg W param)
    end.

(** [exe] is what one of the three strategies yields for [param]. *)
Definition found_by (cfg : Config) (W : World) (param exe : string) : Prop :=
  (isabs W param && path_exists W param = true /\ exe = param)
  \/ which W param = Some exe
  \/ first_found (spec_resolve_candidate W) (spec_table_candidates cfg W param)
     = Some exe.

(** What holds of the real [os.path.isabs] and [shutil.which]: the empty
    string is not an absolute path, and a PATH search never yields it. *)
Definition os_sane (W : World) : Prop :=
  isabs W "" = false /\ forall name, which W name <> Some "".

(** The state in which count 1 has been held for five frames. *)
Definition one_finger_state : State :=
  {| last_trigger_time := 10; stable_counter := 5; last_count := Some 1 |}.

(** The state in which count 2 has been held for five frames. *)
Definition two_finger_state : State :=
  {| last_trigger_time := 0; stable_counter := 5; last_count := Some 2 |}.

(** ** Vocabulary for the finger vector *)

(** The [x] and [y] attributes of landmark [i], when it exists and has
    them. *)
Definition x_of (hand_landmarks : list lmpt) (i : nat) : option coord :=
  match nth_error hand_landmarks i with
  | Some (Landmark x _) => Some x
  | _ => None
  end.

Definition y_of (hand_landmarks : list lmpt) (i : nat) : option coord :=
  match nth_error hand_landmarks i with
  | Some (Landmark _ y) => Some y
  | _ => None
  end.

(** The thumb is judged by the rule of the right hand: the label is
    missing or is ["Right"]. *)
Definition uses_right_rule (hand_label : option string) : bool :=
  match hand_label with
  | None => true
  | Some l => l =? "Right"
  end.

Definition has_coords (p : lmpt) : Prop := p <> NoCoords.

Definition coords (p : lmpt) : coord * coord :=
  match p with
  | Landmark x y => (x, y)
  | NoCoords => (Obj "", Obj "")
  end.

(** Twenty-one landmarks of a flat hand, all at the origin. *)
Definition flat_hand : list lmpt := repeat (Landmark (Num 0) (Num 0)) 21.

(** An open right hand in the mirrored view: thumb tip left of its
    joint, the other tips above their joints; landmark 20 and its
    neighbours are cut off. *)
Definition partial_hand : list lmpt :=
  [ Landmark (Num 0.5) (Num 0.9); Landmark (Num 0.45) (Num 0.8);
    Landmark (Num 0.4) (Num 0.7); Landmark (Num 0.35) (Num 0.6);
    Landmark (Num 0.3) (Num 0.5);
    Landmark (Num 0.5) (Num 0.6); Landmark (Num 0.5) (Num 0.5);
    Landmark (Num 0.5) (Num 0.4); Landmark (Num 0.5) (Num 0.3);
    Landmark (Num 0.55) (Num 0.6); Landmark (Num 0.55) (Num 0.5);
    Landmark (Num 0.55) (Num 0.4); Landmark (Num 0.55) (Num 0.3);
    Landmark (Num 0.6) (Num 0.6); Landmark (Num 0.6) (Obj "None");
    Landmark (Num 0.6) (Num 0.4); Landmark (Num 0.6) (Num 0.3) ].

(** Twenty-one landmarks at the origin, except that the [y] of the index
    tip is the string ['a'] and the [y] of its middle joint the string
    ['b']. *)
Definition letters_hand : list lmpt :=
  repeat (Landmark (Num 0) (Num 0)) 6
  ++ [Landmark (Num 0) (Obj "b"); Landmark (Num 0) (Num 0);
      Landmark (Num 0) (Obj "a")]
  ++ repeat (Landmark (Num 0) (Num 0)) 12.

(** A configuration whose tuples are all unusable: a URL action without
    URL, a spoken text that is empty, and an unknown action type. *)
Definition odd_config : Config :=
  {| STABLE_FRAMES := 6;
     COOLDOWN_SECONDS := 3;
     APP_MAPPING := [ (1, ("open_url", None));
                      (2, ("say_text", Some ""));
                      (3, ("dance", Some "x")) ];
     PROGRAM_LOOKUP := source_PROGRAM_LOOKUP |}.

(** ** The rest of the main loop: HUD, keyboard and loop control *)

(** [max(a, b)] on floats: [b] when it is greater than [a], else [a]. *)
Definition py_max (a b : Q) : Q := if Qltb a b then b else a.

(** [max(0.0, COOLDOWN_SECONDS - (time.time() - last_trigger_time))], the
    number drawn in the top bar. *)
Definition cooldown_remaining (cfg : Config) (now last : Q) : Q :=
  py_max 0 (COOLDOWN_SECONDS cfg - (now - last)).

(** [ord('q')] *)
Definition ord_q : Z := 113.

(** [key = cv2.waitKey(1) & 0xFF; key == ord('q')] *)
Definition quit_pressed (waitKey : Z) : bool :=
  (Z.land waitKey 255 =? ord_q)%Z.

(** What one pass of the [while] loop reads from outside: the result of
    [cap.read()], the world met by a dispatch, the detection result of
    [hands.process], the two readings of [time.time()] (trigger test and
    HUD), and the value of [cv2.waitKey(1)]. *)
Record capture : Type := {
  c_ret : bool;
  c_world : World;
  c_frame : frame;
  c_now : Q;
  c_hud_now : Q;
  c_waitKey : Z
}.

(** How the loop was left; [StillRunning] when the supplied captures are
    used up and the loop would read the next frame. *)
Inductive loop_exit : Type :=
| ReadFailed
| QuitKey
| Raised (e : string)
| StillRunning.

Record loop_result : Type := {
  exit_by : loop_exit;
  final_state : State;
  logs : list (list event);
  hud : list Q
}.

(** The [while True:] loop over the captures supplied. *)
Fixpoint main_loop (cfg : Config) (caps : list capture) (s : State)
  : loop_result :=
  match caps with
  | [] =>
      {| exit_by := StillRunning; final_state := s; logs := []; hud := [] |}
  | c :: rest =>
      if negb (c_ret c) then
        {| exit_by := ReadFailed;
           final_state := s;
           logs := [[EvPrint "[ERROR] Failed reading frame from webcam."]];
           hud := [] |}
      else
        match main_step cfg (c_world c) (c_frame c) (c_now c) s [] with
        | (Raise e, log) =>
            {| exit_by := Raised e; final_state := s; logs := [log]; hud := [] |}
        | (Return s', log) =>
            let remaining :=
              cooldown_remaining cfg (c_hud_now c) (last_trigger_time s') in
            if quit_pressed (c_waitKey c) then
              {| exit_by := QuitKey;
                 final_state := s';
                 logs := [log];
                 hud := [remaining] |}
            else
              let r := main_loop cfg rest s' in
              {| exit_by := exit_by r;
                 final_state := final_state r;
                 logs := log :: logs r;
                 hud := remaining :: hud r |}
        end
  end.

(** [main]: the message printed before the loop, and the loop's result
    unless [cap.isOpened()] was false. *)
Definition main (cfg : Config) (opened : bool) (caps : list capture)
  : list event * option loop_result :=
  if negb opened then
    ([EvPrint "[ERROR] Could not open webcam. Check WEBCAM_INDEX or permissions."],
     None)
  else
    ([EvPrint "[INFO] Starting gesture listener. Press 'q' to quit."],
     Some (main_loop cfg caps initial_state)).

(** ** Vocabulary of the further properties *)

(** The states the loop can be in: no count remembered and a counter at
    0, or a count seen during at least one frame. *)
Definition wf_state (s : State) : Prop :=
  (last_count s = None /\ stable_counter s = 0)
  \/ (exists c, last_count s = Some c /\ 1 <= stable_counter s).

(** The frame of a capture as [tick] sees it, when extraction returns. *)
Definition count_of_frame (W : World) (f : frame) : option (option Z) :=
  match f with
  | NoHand => Some None
  | Hand hand_landmarks hand_label =>
      match count_fingers_from_landmarks W hand_landmarks hand_label with
      | Return (finger_count, _) => Some (Some finger_count)
      | Raise _ => None
      end
  end.

(** The landmark indices read by [count_fingers_from_landmarks]: [x] of
    the thumb tip and its joint, [y] of the other tips and their joints. *)
Definition same_readings (l1 l2 : list lmpt) : Prop :=
  x_of l1 4 = x_of l2 4 /\ x_of l1 3 = x_of l2 3
  /\ forall k, (1 <= k <= 4)%nat ->
               y_of l1 (tip k) = y_of l2 (tip k)
               /\ y_of l1 (tip k - 2) = y_of l2 (tip k - 2).

(** A [Popen] that did not raise: a process was started. *)
Definition is_started (e : event) : bool :=
  match e with
  | EvPopen _ true => true
  | _ => false
  end.

(** At most three [Popen] calls, and none that succeeded before the
    last event. *)
Definition launches_tidy (log : list event) : bool :=
  (popen_calls log <=? 3)%nat
  && forallb (fun e => negb (is_started e)) (removelast log).

(** The captures as [run] takes them, when every extraction returns. *)
Fixpoint ticks_of (caps : list capture)
  : option (list (World * option Z * Q)) :=
  match caps with
  | [] => Some []
  | c :: rest =>
      match count_of_frame (c_world c) (c_frame c), ticks_of rest with
      | Some count, Some ticks => Some ((c_world c, count, c_now c) :: ticks)
      | _, _ => None
      end
  end.

(** All the candidates listed for a key, over every platform group. *)
Definition all_candidates (cfg : Config) (key : string) : list string :=
  List.concat (map snd (dict_get String.eqb (PROGRAM_LOOKUP cfg) key [])).

(** A Windows machine with Chrome installed where process creation
    raises. *)
Definition windows_world : World :=
  {| sys_platform := "win32";
     VOICE_AVAILABLE := false;
     isabs := fun p => String.prefix "C:\" p;
     path_exists :=
       fun p => p =? "C:\Program Files\Google\Chrome\Application\chrome.exe";
     which := fun _ => None;
     Popen_fault := fun _ _ => Some "OSError";
     browser_fault := fun _ => None;
     say_fault := fun _ => None;
     runAndWait_fault := fun _ => None;
     lt_object := fun _ _ => None;
     gt_object := fun _ _ => None |}.

(** A frame showing [partial_hand] at clock reading 13, no key pressed. *)
Definition hold_capture : capture :=
  {| c_ret := true;
     c_world := linux_world;
     c_frame := Hand partial_hand (Some "Right");
     c_now := 13;
     c_hud_now := 13.5;
     c_waitKey := -1 |}.

(** The same frame with [q] pressed, reported with a high bit set. *)
Definition quit_capture : capture :=
  {| c_ret := true;
     c_world := linux_world;
     c_frame := Hand partial_hand (Some "Right");
     c_now := 13;
     c_hud_now := 13.5;
     c_waitKey := 1048576 + 113 |}.

(** * Properties *)

(** ** The log only grows, and only the main loop writes its marks *)

Lemma appends_ret {A} (a : A) : appends (ret a).
Proof.
  intros l; exists []; split; [simpl; now rewrite app_nil_r | constructor].
Qed.

Lemma appends_bind {A B} (m : M A) (f : A -> M B) :
  appends m -> (forall a, appends (f a)) -> appends (bind m f).
Proof.
  intros Hm Hf l; unfold bind.
  destruct (Hm l) as (d & E & Hd).
  destruct (m l) as [[a | e] l']; simpl in E; subst l'.
  - destruct (Hf a (l ++ d)%list) as (d' & E' & Hd').
    exists (d ++ d')%list; rewrite E', app_assoc; split; [easy | now apply Forall_app].
  - now exists d.
Qed.

Lemma appends_try_except {A} (m : M A) (h : string -> M A) :
  appends m -> (forall e, appends (h e)) -> appends (try_except m h).
Proof.
  intros Hm Hh l; unfold try_except.
  destruct (Hm l) as (d & E & Hd).
  destruct (m l) as [[a | e] l']; simpl in E; subst l'.
  - now exists d.
  - destruct (Hh e (l ++ d)%list) as (d' & E' & Hd').
    exists (d ++ d')%list; rewrite E', app_assoc; split; [easy | now apply Forall_app].
Qed.

Lemma appends_emit (e : event) : is_mark e = false -> appends (emit e).
Proof.
  intros He l; exists [e]; split; [reflexivity | now repeat constructor].
Qed.

Lemma appends_print (msg : string) : appends (print msg).
Proof. now apply appends_emit. Qed.

Lemma appends_Popen W argv : appends (Popen W argv).
Proof.
  intros l; unfold Popen.
  destruct (Popen_fault W (popen_calls l) argv);
    eexists; (split; [reflexivity | now repeat constructor]).
Qed.

Lemma appends_webbrowser_open W url : appends (webbrowser_open W url).
Proof.
  intros l; unfold webbrowser_open.
  destruct (browser_fault W url);
    eexists; (split; [reflexivity | now repeat constructor]).
Qed.

Lemma appends_tts_say W text : appends (tts_say W text).
Proof.
  intros l; unfold tts_say.
  destruct (say_fault W text);
    eexists; (split; [reflexivity | now repeat constructor]).
Qed.

Lemma appends_tts_runAndWait W text : appends (tts_runAndWait W text).
Proof.
  intros l; unfold tts_runAndWait.
  destruct (runAndWait_fault W text);
    eexists; (split; [reflexivity | now repeat constructor]).
Qed.

Create HintDb log discriminated.
#[export] Hint Resolve appends_ret appends_bind appends_try_except appends_print
  appends_Popen appends_webbrowser_open appends_tts_say appends_tts_runAndWait
  : log.

(** Splits the conditionals of a computation and closes each branch from
    the hints above. *)
Ltac appends_branches :=
  repeat first
    [ solve [auto with log]
    | match goal with
      | |- appends (if ?b then _ else _) => destruct b
      | |- appends (match ?o with _ => _ end) => destruct o
      | |- forall _, _ => intro
      end
    | apply appends_bind
    | apply appends_try_except ].

Lemma appends_speak W text : appends (speak W text).
Proof. unfold speak; appends_branches. Qed.

#[export] Hint Resolve appends_speak : log.

Lemma appends_launch_program_by_key cfg W key :
  appends (launch_program_by_key cfg W key).
Proof. unfold launch_program_by_key; appends_branches. Qed.

#[export] Hint Resolve appends_launch_program_by_key : log.

Lemma appends_open_program_branch cfg W param :
  appends (open_program_branch cfg W param).
Proof. unfold open_program_branch; appends_branches. Qed.

#[export] Hint Resolve appends_open_program_branch : log.

Lemma appends_perform_mapped_action cfg W mapping :
  appends (perform_mapped_action cfg W mapping).
Proof.
  destruct mapping as [action param]; unfold perform_mapped_action.
  appends_branches.
Qed.

Lemma appends_feedback W mapping : appends (feedback W mapping).
Proof. unfold feedback; appends_branches. Qed.

(** [speak] swallows every fault of the speech engine. *)
Lemma speak_returns W text l : exists l', speak W text l = (Return tt, l').
Proof.
  unfold speak, try_except, bind, tts_say, tts_runAndWait, ret.
  destruct (VOICE_AVAILABLE W); simpl; [| now eexists].
  destruct (say_fault W text); [now eexists |].
  destruct (runAndWait_fault W text); now eexists.
Qed.

Lemma feedback_returns W mapping l :
  exists l', feedback W mapping l = (Return tt, l').
Proof.
  unfold feedback.
  repeat match goal with |- context [if ?b then _ else _] => destruct b end;
    apply speak_returns.
Qed.

(** ** The four ways one iteration can end *)

Lemma stability_logic_time c s :
  last_trigger_time (stability_logic c s) = last_trigger_time s.
Proof. unfold stability_logic; now destruct (count_eqb c (last_count s)). Qed.

Lemma debounce_time count s :
  last_trigger_time (debounce count s) = last_trigger_time s.
Proof. destruct count; [apply stability_logic_time | reflexivity]. Qed.

Lemma tick_cases cfg W count now s l :
  tick_outcome cfg W count now s l (tick cfg W count now s l).
Proof.
  destruct count as [c |]; [| apply Tick_idle; now left].
  cbn [tick]; unfold trigger; rewrite stability_logic_time.
  destruct (is_stable cfg (stability_logic c s)
            && cooldown_passed cfg now (last_trigger_time s)) eqn:G;
    [| apply Tick_idle; now right].
  set (m := dict_get Z.eqb (APP_MAPPING cfg) c ("noop", None)).
  unfold bind at 1, emit at 1.
  destruct (appends_perform_mapped_action cfg W m (l ++ [EvCall m])%list)
    as (d & E & Hd).
  unfold bind at 1.
  destruct (perform_mapped_action cfg W m (l ++ [EvCall m])%list)
    as [[v | e] l1] eqn:P; simpl in E; subst l1;
    rewrite <- app_assoc in *; simpl in *.
  - unfold bind at 1, emit at 1.
    destruct (truthy v) eqn:T.
    + destruct (feedback_returns W m ((l ++ EvCall m :: d) ++ [EvRet v])%list)
        as (l' & F).
      destruct (appends_feedback W m ((l ++ EvCall m :: d) ++ [EvRet v])%list)
        as (d' & E' & Hd').
      unfold bind; rewrite F in *; simpl in E'; subst l'.
      unfold ret.
      replace (((l ++ EvCall m :: d) ++ [EvRet v]) ++ d')%list
        with (l ++ EvCall m :: d ++ EvRet v :: d')%list
        by (now rewrite <- !app_assoc).
      now apply Tick_acted with (c := c).
    + unfold ret.
      replace ((l ++ EvCall m :: d) ++ [EvRet v])%list
        with (l ++ EvCall m :: d ++ [EvRet v])%list
        by (now rewrite <- !app_assoc).
      now apply Tick_failed with (c := c).
  - now apply Tick_raised with (c := c).
Qed.

(** ** Debounce *)

Lemma count_eqb_true c last : count_eqb c last = true <-> last = Some c.
Proof.
  destruct last as [c' |]; simpl; [| easy].
  rewrite Z.eqb_eq; split; congruence.
Qed.

Lemma debounce_none s :
  debounce None s
  = {| last_trigger_time := last_trigger_time s;
       stable_counter := 0;
       last_count := None |}.
Proof. reflexivity. Qed.

Lemma debounce_same s c :
  last_count s = Some c ->
  debounce (Some c) s
  = {| last_trigger_time := last_trigger_time s;
       stable_counter := stable_counter s + 1;
       last_count := Some c |}.
Proof.
  intros H; simpl; unfold stability_logic.
  destruct (count_eqb c (last_count s)) eqn:E.
  - now rewrite H.
  - apply count_eqb_true in H; congruence.
Qed.

Lemma debounce_other s c :
  last_count s <> Some c ->
  debounce (Some c) s
  = {| last_trigger_time := last_trigger_time s;
       stable_counter := 1;
       last_count := Some c |}.
Proof.
  intros H; simpl; unfold stability_logic.
  destruct (count_eqb c (last_count s)) eqn:E; [| reflexivity].
  now apply count_eqb_true in E.
Qed.

(** When the iteration returns, its state carries the debounce update,
    whether or not an action was dispatched. *)
Lemma tick_debounce cfg W count now s l s' l' :
  tick cfg W count now s l = (Return s', l') ->
  stable_counter s' = stable_counter (debounce count s)
  /\ last_count s' = last_count (debounce count s).
Proof.
  intros H; pose proof (tick_cases cfg W count now s l) as O.
  rewrite H in O; inversion O; subst; now split.
Qed.

Lemma feed_snoc counts count s :
  feed (counts ++ [count]) s = debounce count (feed counts s).
Proof. unfold feed; now rewrite fold_left_app. Qed.

Lemma feed_held s c (k : nat) :
  last_count s = Some c ->
  feed (repeat (Some c) k) s
  = {| last_trigger_time := last_trigger_time s;
       stable_counter := stable_counter s + Z.of_nat k;
       last_count := Some c |}.
Proof.
  revert s; induction k as [| k IH]; intros s H.
  - simpl; rewrite Z.add_0_r; destruct s; simpl in *; now subst.
  - rewrite Nat2Z.inj_succ.
    cbn [repeat]; unfold feed; cbn [fold_left]; fold (feed (repeat (Some c) k)).
    rewrite (debounce_same _ _ H), IH by reflexivity.
    cbn [last_trigger_time stable_counter]; f_equal; lia.
Qed.

Lemma feed_run_of s c (k : nat) :
  last_count s <> Some c ->
  feed (repeat (Some c) (S k)) s
  = {| last_trigger_time := last_trigger_time s;
       stable_counter := Z.of_nat (S k);
       last_count := Some c |}.
Proof.
  intros H; cbn [repeat]; unfold feed; cbn [fold_left];
    fold (feed (repeat (Some c) k)).
  rewrite (debounce_other _ _ H), feed_held by reflexivity.
  rewrite Nat2Z.inj_succ; cbn [last_trigger_time stable_counter]; f_equal; lia.
Qed.

(** The debounce fields evolve independently of [last_trigger_time]. *)
Lemma debounce_fields count s1 s2 :
  stable_counter s1 = stable_counter s2 ->
  last_count s1 = last_count s2 ->
  stable_counter (debounce count s1) = stable_counter (debounce count s2)
  /\ last_count (debounce count s1) = last_count (debounce count s2).
Proof.
  intros Hc Hl; destruct count as [c |]; simpl; [| easy].
  unfold stability_logic; rewrite Hl.
  destruct (count_eqb c (last_count s2)); simpl; split; congruence.
Qed.

Lemma feed_fields counts : forall s1 s2,
  stable_counter s1 = stable_counter s2 ->
  last_count s1 = last_count s2 ->
  stable_counter (feed counts s1) = stable_counter (feed counts s2)
  /\ last_count (feed counts s1) = last_count (feed counts s2).
Proof.
  induction counts as [| count rest IH]; intros s1 s2 Hc Hl; [easy |].
  unfold feed; cbn [fold_left]; fold (feed rest).
  now apply IH; apply debounce_fields.
Qed.

(** [run] performs [feed] on the debounce fields. *)
Lemma run_feed cfg ticks : forall s s' logs,
  run cfg ticks s = (Return s', logs) ->
  stable_counter s' = stable_counter (feed (map count_of ticks) s)
  /\ last_count s' = last_count (feed (map count_of ticks) s).
Proof.
  induction ticks as [| [[W count] now] rest IH]; intros s s' logs H.
  - simpl in H; injection H as <- _; now split.
  - cbn [run] in H.
    destruct (tick cfg W count now s []) as [[s1 | e] log] eqn:T; [| discriminate].
    destruct (run cfg rest s1) as [r logs'] eqn:R.
    injection H as -> _.
    destruct (IH _ _ _ R) as [IHc IHl].
    destruct (tick_debounce _ _ _ _ _ _ _ _ T) as [Tc Tl].
    change (feed (map count_of ((W, count, now) :: rest)) s)
      with (feed (map count_of rest) (debounce count s)).
    destruct (feed_fields (map count_of rest) s1 (debounce count s) Tc Tl).
    split; congruence.
Qed.

Lemma feed_app pre post s : feed (pre ++ post) s = feed post (feed pre s).
Proof. unfold feed; now rewrite fold_left_app. Qed.

(** C2.  The debounce state evolves as follows.  On [None] it becomes
    [{last_count: None, consecutive_ticks: 0}]; on a count equal to
    [last_count] the counter grows by one; on a differing count
    [last_count] becomes that count and the counter becomes 1.  The loop
    body applies exactly this update at every iteration ([run] agrees
    with [feed] on both fields).  Hence after a run of [k >= 1] identical
    counts that is not preceded by the same count the counter equals [k],
    a [None] at any point resets it to 0, and with [STABLE_FRAMES = 6]
    the fifth identical tick is not stable while the sixth is. *)
Theorem debounce_state_evolution :
  (forall s,
      debounce None s
      = {| last_trigger_time := last_trigger_time s;
           stable_counter := 0;
           last_count := None |})
  /\ (forall s c,
         last_count s = Some c ->
         debounce (Some c) s
         = {| last_trigger_time := last_trigger_time s;
              stable_counter := stable_counter s + 1;
              last_count := Some c |})
  /\ (forall s c,
         last_count s <> Some c ->
         debounce (Some c) s
         = {| last_trigger_time := last_trigger_time s;
              stable_counter := 1;
              last_count := Some c |})
  /\ (forall cfg ticks s s' logs,
         run cfg ticks s = (Return s', logs) ->
         stable_counter s' = stable_counter (feed (map count_of ticks) s)
         /\ last_count s' = last_count (feed (map count_of ticks) s))
  /\ (forall pre s c (k : nat),
         last_count (feed pre s) <> Some c ->
         (0 < k)%nat ->
         stable_counter (feed (pre ++ repeat (Some c) k) s) = Z.of_nat k
         /\ last_count (feed (pre ++ repeat (Some c) k) s) = Some c)
  /\ (forall pre s,
         stable_counter (feed (pre ++ [None]) s) = 0
         /\ last_count (feed (pre ++ [None]) s) = None)
  /\ (forall cfg pre s c,
         STABLE_FRAMES cfg = 6 ->
         last_count (feed pre s) <> Some c ->
         is_stable cfg (feed (pre ++ repeat (Some c) 5) s) = false
         /\ is_stable cfg (feed (pre ++ repeat (Some c) 6) s) = true).
Proof.
  repeat split.
  - intros; now apply debounce_same.
  - intros; now apply debounce_other.
  - eapply run_feed; eassumption.
  - eapply run_feed; eassumption.
  - destruct k as [| k]; [lia |].
    rewrite feed_app, feed_run_of by assumption; reflexivity.
  - destruct k as [| k]; [lia |].
    rewrite feed_app, feed_run_of by assumption; reflexivity.
  - now rewrite feed_snoc.
  - now rewrite feed_snoc.
  - rewrite feed_app, feed_run_of by assumption.
    unfold is_stable; rewrite H; reflexivity.
  - rewrite feed_app, feed_run_of by assumption.
    unfold is_stable; rewrite H; reflexivity.
Qed.

Lemma debounce_state_evolution_witness :
  debounce (Some 3) held_state
  = {| last_trigger_time := 10; stable_counter := 7; last_count := Some 3 |}
  /\ debounce (Some 2) held_state
     = {| last_trigger_time := 10; stable_counter := 1; last_count := Some 2 |}
  /\ stable_counter (feed ([Some 1; None] ++ repeat (Some 3) 4) initial_state) = 4
  /\ STABLE_FRAMES (source_config linux_world) = 6
  /\ last_count (feed [None] initial_state) <> Some 3
  /\ is_stable (source_config linux_world)
       (feed ([None] ++ repeat (Some 3) 5) initial_state) = false
  /\ is_stable (source_config linux_world)
       (feed ([None] ++ repeat (Some 3) 6) initial_state) = true.
Proof.
  destruct debounce_state_evolution as (_ & Hsame & Hother & _ & Hrun & _ & H).
  split; [apply (Hsame held_state 3); reflexivity |].
  split; [apply (Hother held_state 2); simpl; discriminate |].
  split; [apply (Hrun [Some 1; None] initial_state 3 4%nat);
          [simpl; discriminate | lia] |].
  split; [reflexivity |].
  split; [simpl; discriminate |].
  apply H; [reflexivity | simpl; discriminate].
Defined.

(** ** Trigger condition *)

Lemma no_marks_filter d : no_marks d -> filter is_call d = [].
Proof.
  induction 1 as [| e d He _ IH]; [reflexivity |].
  simpl; destruct e; try discriminate; assumption.
Qed.

Lemma cooldown_passed_iff cfg now last :
  cooldown_passed cfg now last = true
  <-> (COOLDOWN_SECONDS cfg <= now - last)%Q.
Proof. apply Qle_bool_iff. Qed.

Lemma is_stable_iff cfg s :
  is_stable cfg s = true <-> STABLE_FRAMES cfg <= stable_counter s.
Proof. apply Z.leb_le. Qed.

Lemma guard_iff cfg count now s :
  guard cfg count now s = true
  <-> STABLE_FRAMES cfg <= stable_counter (debounce count s)
      /\ (COOLDOWN_SECONDS cfg <= now - last_trigger_time s)%Q.
Proof.
  unfold guard; now rewrite andb_true_iff, is_stable_iff, cooldown_passed_iff.
Qed.

Lemma tick_dispatch_guard cfg W count now s r log :
  tick cfg W count now s [] = (r, log) ->
  dispatched log ->
  guard cfg count now s = true /\ count <> None.
Proof.
  intros H [m Hm]; pose proof (tick_cases cfg W count now s []) as O.
  rewrite H in O; inversion O; subst; try (split; [assumption | discriminate]).
  destruct Hm.
Qed.

Lemma tick_call_once cfg W count now s r log :
  tick cfg W count now s [] = (r, log) ->
  (List.length (filter is_call log) <= 1)%nat.
Proof.
  intros H; pose proof (tick_cases cfg W count now s []) as O.
  rewrite H in O; inversion O; subst; cbn [app filter is_call List.length];
    rewrite ?filter_app; cbn [filter is_call];
    rewrite ?no_marks_filter by assumption; simpl; lia.
Qed.

(** While the cooldown has not passed, an iteration only updates the
    debounce fields and writes nothing. *)
Lemma quiet_tick cfg W c now s :
  cooldown_passed cfg now (last_trigger_time s) = false ->
  tick cfg W (Some c) now s [] = (Return (debounce (Some c) s), []).
Proof.
  intros H; cbn [tick debounce]; unfold trigger.
  now rewrite stability_logic_time, H, andb_false_r.
Qed.

Lemma held_quiet_run cfg c pre : forall s,
  last_count s = Some c ->
  Forall (fun t => count_of t = Some c
                   /\ cooldown_passed cfg (time_of t) (last_trigger_time s) = false)
         pre ->
  run cfg pre s
  = (Return {| last_trigger_time := last_trigger_time s;
               stable_counter := stable_counter s + Z.of_nat (List.length pre);
               last_count := Some c |},
     map (fun _ => []) pre).
Proof.
  induction pre as [| [[W count] now] rest IH]; intros s Hl Hp.
  - simpl; rewrite Z.add_0_r; destruct s; simpl in *; now subst.
  - inversion Hp as [| t ts [Hc Hq] Hrest]; subst.
    unfold count_of, time_of in Hc, Hq; simpl in Hc, Hq; subst count.
    cbn [run]; rewrite (quiet_tick _ _ _ _ _ Hq), (debounce_same _ _ Hl).
    rewrite IH by (simpl; auto).
    cbn [last_trigger_time stable_counter map List.length].
    rewrite Nat2Z.inj_succ; do 3 f_equal; lia.
Qed.

(** A count held for long enough is dispatched as soon as the cooldown
    has passed. *)
Lemma held_fires cfg W c now s :
  last_count s = Some c ->
  STABLE_FRAMES cfg <= stable_counter s + 1 ->
  cooldown_passed cfg now (last_trigger_time s) = true ->
  dispatched (snd (tick cfg W (Some c) now s [])).
Proof.
  intros Hl Hs Hq.
  assert (G : guard cfg (Some c) now s = true).
  { unfold guard; rewrite Hq, andb_true_r, (debounce_same _ _ Hl).
    now apply is_stable_iff. }
  pose proof (tick_cases cfg W (Some c) now s []) as O.
  destruct (tick cfg W (Some c) now s []) as [r log].
  inversion O; subst;
    try match goal with H : _ \/ _ |- _ => destruct H; congruence end;
    eexists; simpl; left; reflexivity.
Qed.

(** C1.  In every iteration [perform_mapped_action] is called only if
    [stable_counter >= STABLE_FRAMES] and
    [now - last_trigger_time >= COOLDOWN_SECONDS], and it is called at most
    once.  A trigger never resets the counter: whatever the dispatch
    returns, the counter of the next state is the debounced one, still at
    least [STABLE_FRAMES] after a dispatch.  So for a
    count held past [STABLE_FRAMES] iterations, the iterations before the
    cooldown has passed dispatch nothing and keep counting, and the first
    iteration at which the cooldown has passed dispatches again. *)
Theorem trigger_guard_and_refire :
  (forall cfg W count now s r log,
      tick cfg W count now s [] = (r, log) ->
      (dispatched log ->
       STABLE_FRAMES cfg <= stable_counter (debounce count s)
       /\ (COOLDOWN_SECONDS cfg <= now - last_trigger_time s)%Q)
      /\ (List.length (filter is_call log) <= 1)%nat
      /\ (forall s', r = Return s' ->
                     stable_counter s' = stable_counter (debounce count s)
                     /\ last_count s' = last_count (debounce count s)
                     /\ (dispatched log ->
                         STABLE_FRAMES cfg <= stable_counter s')))
  /\ (forall cfg c s pre W now,
         last_count s = Some c ->
         STABLE_FRAMES cfg <= stable_counter s ->
         Forall (fun t => count_of t = Some c
                          /\ ~ (COOLDOWN_SECONDS cfg
                                <= time_of t - last_trigger_time s)%Q) pre ->
         (COOLDOWN_SECONDS cfg <= now - last_trigger_time s)%Q ->
         exists s1,
           run cfg pre s = (Return s1, map (fun _ => []) pre)
           /\ last_trigger_time s1 = last_trigger_time s
           /\ stable_counter s1 = stable_counter s + Z.of_nat (List.length pre)
           /\ dispatched (snd (tick cfg W (Some c) now s1 []))).
Proof.
  split.
  - intros cfg W count now s r log H; split; [| split].
    + intros D; now apply guard_iff, (tick_dispatch_guard _ _ _ _ _ _ _ H).
    + apply (tick_call_once _ _ _ _ _ _ _ H).
    + intros s' ->.
      destruct (tick_debounce _ _ _ _ _ _ _ _ H) as [Hc Hl].
      split; [exact Hc | split; [exact Hl |]].
      intros D; rewrite Hc.
      destruct (tick_dispatch_guard _ _ _ _ _ _ _ H D) as [G _].
      now apply guard_iff in G.
  - intros cfg c s pre W now Hl Hs Hp Hq.
    eexists; split; [apply held_quiet_run with (c := c); [assumption |] |].
    + eapply Forall_impl; [| exact Hp].
      intros t [Hc Hn]; split; [assumption |].
      destruct (cooldown_passed cfg (time_of t) (last_trigger_time s)) eqn:E;
        [| reflexivity].
      now apply cooldown_passed_iff in E.
    + cbn [last_trigger_time stable_counter];
        split; [reflexivity | split; [reflexivity |]].
      apply held_fires; cbn [last_trigger_time stable_counter last_count];
        [reflexivity | lia | now apply cooldown_passed_iff].
Qed.

Lemma trigger_guard_and_refire_witness :
  tick (source_config linux_world) linux_world (Some 3) 13 held_state []
  = (Return {| last_trigger_time := 13;
               stable_counter := 7;
               last_count := Some 3 |},
     [EvCall ("open_program", Some "code");
      EvPopen ["/usr/bin/code"] true;
      EvRet (PyBool true)])
  /\ (List.length
        (filter is_call
           [EvCall ("open_program", Some "code");
            EvPopen ["/usr/bin/code"] true;
            EvRet (PyBool true)]) <= 1)%nat
  /\ exists s1,
       run (source_config linux_world)
           [(linux_world, Some 3, 11%Q); (linux_world, Some 3, 12%Q)] held_state
       = (Return s1, [[]; []])
       /\ last_trigger_time s1 = 10%Q
       /\ stable_counter s1 = 6 + 2
       /\ dispatched
            (snd (tick (source_config linux_world) linux_world (Some 3) 13 s1 [])).
Proof.
  destruct trigger_guard_and_refire as [H1 H2].
  split; [reflexivity |].
  split.
  - apply (H1 (source_config linux_world) linux_world (Some 3) 13%Q held_state
              (Return {| last_trigger_time := 13;
                         stable_counter := 7;
                         last_count := Some 3 |})).
    reflexivity.
  - apply (H2 (source_config linux_world) 3 held_state
              [(linux_world, Some 3, 11%Q); (linux_world, Some 3, 12%Q)]
              linux_world 13%Q).
    + reflexivity.
    + simpl; lia.
    + repeat constructor; unfold Qle; simpl; lia.
    + unfold Qle; simpl; lia.
Defined.

(** ** Recording the trigger time *)

Lemma perform_noop cfg W param l :
  perform_mapped_action cfg W ("noop", param) l = (Return (PyBool false), l).
Proof. reflexivity. Qed.

(** An iteration either keeps [last_trigger_time], or it dispatched, the
    dispatch returned a true value, and the new value is [now]. *)
Lemma tick_time cfg W count now s s' log :
  tick cfg W count now s [] = (Return s', log) ->
  last_trigger_time s' = last_trigger_time s
  \/ (last_trigger_time s' = now /\ dispatched log /\ acted log).
Proof.
  intros H; pose proof (tick_cases cfg W count now s []) as O.
  rewrite H in O; inversion O; subst.
  - left; apply debounce_time.
  - left; apply debounce_time.
  - right; split; [reflexivity | split].
    + eexists; simpl; left; reflexivity.
    + exists v; split; [| assumption].
      simpl; right; apply in_or_app; right; now left.
Qed.

(** Conversely a dispatch that returned a true value is recorded. *)
Lemma tick_acted_records cfg W count now s s' log :
  tick cfg W count now s [] = (Return s', log) ->
  acted log ->
  last_trigger_time s' = now.
Proof.
  intros H (v & Hin & Hv); pose proof (tick_cases cfg W count now s []) as O.
  rewrite H in O; inversion O; subst; [destruct Hin | | reflexivity].
  simpl in Hin; destruct Hin as [Hin | Hin]; [discriminate |].
  apply in_app_or in Hin; destruct Hin as [Hin | [Hin | []]].
  - match goal with Hd : no_marks ?d, Hi : In _ ?d |- _ =>
      apply (proj1 (Forall_forall _ _) Hd) in Hi; discriminate end.
  - congruence.
Qed.

Lemma tick_noop cfg W c now s :
  fst (mapping_of cfg c) = "noop" ->
  exists log,
    tick cfg W (Some c) now s [] = (Return (debounce (Some c) s), log)
    /\ ~ acted log.
Proof.
  intros Hm; cbn [tick debounce]; unfold trigger.
  destruct (is_stable cfg (stability_logic c s)
            && cooldown_passed cfg now (last_trigger_time (stability_logic c s))).
  - fold (mapping_of cfg c); destruct (mapping_of cfg c) as [action param].
    simpl in Hm; subst action.
    eexists; split; [reflexivity |].
    intros (v & Hin & Hv); simpl in Hin.
    destruct Hin as [Hin | [Hin | []]]; [discriminate |].
    injection Hin as <-; discriminate.
  - exists []; split; [reflexivity |].
    now intros (v & [] & _).
Qed.

Lemma run_noop cfg ticks : forall s,
  Forall (fun t => forall c, count_of t = Some c ->
                             fst (mapping_of cfg c) = "noop") ticks ->
  exists s' logs,
    run cfg ticks s = (Return s', logs)
    /\ last_trigger_time s' = last_trigger_time s
    /\ Forall (fun log => ~ acted log) logs.
Proof.
  induction ticks as [| [[W count] now] rest IH]; intros s Hn.
  - exists s, []; repeat split; constructor.
  - inversion Hn as [| t ts Ht Hrest]; subst.
    assert (T : exists log,
               tick cfg W count now s [] = (Return (debounce count s), log)
               /\ ~ acted log).
    { destruct count as [c |]; [apply tick_noop, Ht; reflexivity |].
      exists []; split; [reflexivity | now intros (v & [] & _)]. }
    destruct T as (log & T & Hlog).
    destruct (IH (debounce count s) Hrest) as (s' & logs & R & Ht' & Hl').
    exists s', (log :: logs); cbn [run]; rewrite T, R.
    rewrite Ht', debounce_time; repeat split; now constructor.
Qed.

(** C3.  [last_trigger_time] changes only in an iteration that called
    [perform_mapped_action] and got a true value back; it is then set to
    [now].  Dispatching a ["noop"] tuple returns [False] without any
    effect, so over any number of iterations whose counts map to ["noop"]
    (the default for an unmapped count included) the loop never raises
    and [last_trigger_time] keeps its value. *)
Theorem last_trigger_time_only_when_acted :
  (forall cfg W count now s s' log,
      tick cfg W count now s [] = (Return s', log) ->
      (last_trigger_time s' <> last_trigger_time s ->
       dispatched log /\ acted log /\ last_trigger_time s' = now)
      /\ (~ acted log -> last_trigger_time s' = last_trigger_time s))
  /\ (forall cfg W param l,
         perform_mapped_action cfg W ("noop", param) l
         = (Return (PyBool false), l))
  /\ (forall cfg c,
         (forall m, ~ In (c, m) (APP_MAPPING cfg)) ->
         mapping_of cfg c = ("noop", None))
  /\ (forall cfg ticks s,
         Forall (fun t => forall c, count_of t = Some c ->
                                    fst (mapping_of cfg c) = "noop") ticks ->
         exists s' logs,
           run cfg ticks s = (Return s', logs)
           /\ last_trigger_time s' = last_trigger_time s).
Proof.
  split; [| split; [| split]].
  - intros cfg W count now s s' log H.
    destruct (tick_time _ _ _ _ _ _ _ H) as [E | (E & D & A)]; split; tauto.
  - intros; apply perform_noop.
  - intros cfg c Hc; unfold mapping_of.
    induction (APP_MAPPING cfg) as [| [k m] rest IH]; [reflexivity |].
    simpl; destruct (Z.eqb_spec k c) as [-> | _].
    + destruct (Hc m); now left.
    + apply IH; intros m' Hin; apply (Hc m'); now right.
  - intros cfg ticks s Hn.
    destruct (run_noop cfg ticks s Hn) as (s' & logs & R & E & _).
    now exists s', logs.
Qed.

Lemma last_trigger_time_only_when_acted_witness :
  (tick (source_config linux_world) linux_world (Some 3) 13 held_state []
   = (Return {| last_trigger_time := 13;
                stable_counter := 7;
                last_count := Some 3 |},
      [EvCall ("open_program", Some "code");
       EvPopen ["/usr/bin/code"] true;
       EvRet (PyBool true)]))
  /\ acted [EvCall ("open_program", Some "code");
            EvPopen ["/usr/bin/code"] true;
            EvRet (PyBool true)]
  /\ mapping_of (source_config linux_world) 7 = ("noop", None)
  /\ Forall (fun t => forall c, count_of t = Some c ->
                fst (mapping_of (source_config linux_world) c) = "noop")
        [(linux_world, Some 0, 100%Q); (linux_world, Some 7, 101%Q)]
  /\ exists s' logs,
       run (source_config linux_world)
           [(linux_world, Some 0, 100%Q); (linux_world, Some 7, 101%Q)]
           initial_state
       = (Return s', logs)
       /\ last_trigger_time s' = last_trigger_time initial_state.
Proof.
  destruct last_trigger_time_only_when_acted as (Htick & _ & Hmiss & Hrun).
  assert (N : Forall (fun t => forall c, count_of t = Some c ->
                 fst (mapping_of (source_config linux_world) c) = "noop")
                [(linux_world, Some 0, 100%Q); (linux_world, Some 7, 101%Q)]).
  { repeat constructor; intros c E; injection E as <-; reflexivity. }
  split; [reflexivity |].
  split.
  { apply (Htick (source_config linux_world) linux_world (Some 3) 13%Q
             held_state _ _ eq_refl).
    simpl; intros E; discriminate E. }
  split.
  { apply Hmiss; intros m; simpl; intuition discriminate. }
  split; [exact N | apply Hrun, N].
Defined.

(** ** Cooldown gate *)

Lemma cooldown_passed_false_iff cfg now last :
  cooldown_passed cfg now last = false
  <-> (now - last < COOLDOWN_SECONDS cfg)%Q.
Proof.
  rewrite <- not_true_iff_false, cooldown_passed_iff.
  split; [apply Qnot_le_lt | apply Qlt_not_le].
Qed.

(** Before the first trigger the gate compares against the initial value
    [0.0]: at clock reading [1] it is closed, and a count held for six
    iterations at that reading is not dispatched. *)
Lemma gate_closed_before_first_trigger :
  cooldown_passed (source_config linux_world) 1
    (last_trigger_time initial_state) = false
  /\ run (source_config linux_world)
         (repeat (linux_world, Some 1, 1%Q) 6) initial_state
     = (Return {| last_trigger_time := 0;
                  stable_counter := 6;
                  last_count := Some 1 |},
        [[]; []; []; []; []; []]).
Proof. split; reflexivity. Qed.

(** C4, amended.  After an iteration at time [t0] whose dispatch returned
    a true value, [last_trigger_time] is [t0] and the gate is open at [t]
    iff [t - t0 >= COOLDOWN_SECONDS]: closed for every
    [t < t0 + COOLDOWN_SECONDS], open for every
    [t >= t0 + COOLDOWN_SECONDS].  Before the first trigger
    [last_trigger_time] is [0.0], so the gate is open exactly at the
    clock readings [t >= COOLDOWN_SECONDS]. *)
Theorem cooldown_gate :
  (forall cfg W count t0 s s' log,
      tick cfg W count t0 s [] = (Return s', log) ->
      acted log ->
      last_trigger_time s' = t0
      /\ forall t,
          (cooldown_passed cfg t (last_trigger_time s') = true
           <-> (COOLDOWN_SECONDS cfg <= t - t0)%Q)
          /\ ((t < t0 + COOLDOWN_SECONDS cfg)%Q ->
              cooldown_passed cfg t (last_trigger_time s') = false)
          /\ ((t0 + COOLDOWN_SECONDS cfg <= t)%Q ->
              cooldown_passed cfg t (last_trigger_time s') = true))
  /\ (forall cfg t,
         cooldown_passed cfg t (last_trigger_time initial_state) = true
         <-> (COOLDOWN_SECONDS cfg <= t)%Q).
Proof.
  split.
  - intros cfg W count t0 s s' log H A.
    rewrite (tick_acted_records _ _ _ _ _ _ _ H A).
    split; [reflexivity |]; intros t; split; [| split].
    + apply cooldown_passed_iff.
    + intros Ht; apply cooldown_passed_false_iff; lra.
    + intros Ht; apply cooldown_passed_iff; lra.
  - intros cfg t; rewrite cooldown_passed_iff; simpl.
    split; intros Ht; lra.
Qed.

Lemma cooldown_gate_witness :
  acted [EvCall ("open_program", Some "code");
         EvPopen ["/usr/bin/code"] true;
         EvRet (PyBool true)]
  /\ (cooldown_passed (source_config linux_world) 15 13 = false)
  /\ (cooldown_passed (source_config linux_world) 16 13 = true).
Proof.
  assert (A : acted [EvCall ("open_program", Some "code");
                     EvPopen ["/usr/bin/code"] true;
                     EvRet (PyBool true)]).
  { exists (PyBool true); split; [simpl; tauto | reflexivity]. }
  destruct cooldown_gate as [H _].
  destruct (H (source_config linux_world) linux_world (Some 3) 13%Q held_state
              _ _ eq_refl A) as [_ G].
  split; [exact A |]; split.
  - apply (G 15%Q); unfold Qlt; simpl; lia.
  - apply (G 16%Q); unfold Qle; simpl; lia.
Defined.

(** ** Dispatch: tuples that fall through to the warning *)

(** An iteration whose dispatch returns a false value leaves the state
    debounced and nothing else. *)
Lemma tick_falsy cfg W c now s :
  (forall l, exists v l',
      perform_mapped_action cfg W (mapping_of cfg c) l = (Return v, l')
      /\ truthy v = false) ->
  exists log,
    tick cfg W (Some c) now s [] = (Return (debounce (Some c) s), log)
    /\ ~ acted log.
Proof.
  intros Hp; pose proof (tick_cases cfg W (Some c) now s []) as O.
  destruct (tick cfg W (Some c) now s []) as [r log].
  inversion O as [ _ | c0 m e d Ec _ Em P _ | c0 m v d Ec _ Em P Hd Hv
                 | c0 m v d d' Ec _ Em P _ _ Hv ];
    subst; try (injection Ec as <-);
    try (destruct (Hp [EvCall (mapping_of cfg c)]) as (v' & l' & P' & Hv');
         unfold mapping_of in P'; simpl in P; rewrite P in P').
  - exists []; split; [reflexivity | now intros (v & [] & _)].
  - discriminate.
  - eexists; split; [reflexivity |].
    intros (v0 & Hin & Hv0); simpl in Hin.
    destruct Hin as [Hin | Hin]; [discriminate |].
    apply in_app_or in Hin; destruct Hin as [Hin | [Hin | []]].
    + apply (proj1 (Forall_forall _ _) Hd) in Hin; discriminate.
    + congruence.
  - injection P' as <- _; congruence.
Qed.

Lemma falls_through_warns cfg W action param l :
  falls_through (action, param) ->
  perform_mapped_action cfg W (action, param) l
  = (Return (PyBool false),
     (l ++ [EvPrint ("[WARN] Unknown action '" ++ action
                     ++ "' or missing parameter.")])%list).
Proof.
  unfold falls_through, perform_mapped_action.
  intros [[-> [-> | ->]] | [[-> [-> | ->]] | (N1 & N2 & N3 & N4)]];
    try reflexivity.
  apply String.eqb_neq in N1, N2, N3, N4.
  now rewrite N1, N2, N3, N4.
Qed.

(** C10.  An ["open_url"] tuple whose parameter is [None] or empty, a
    ["say_text"] tuple whose parameter is [None] or empty, and a tuple with
    an unrecognised action type all reach the final warning: the dispatch
    prints it, returns [False] and does nothing else.  An iteration that
    dispatches such a tuple therefore keeps [last_trigger_time]. *)
Theorem fall_through_returns_false :
  forall cfg W mapping,
    falls_through mapping ->
    (forall l,
        perform_mapped_action cfg W mapping l
        = (Return (PyBool false),
           (l ++ [EvPrint ("[WARN] Unknown action '" ++ fst mapping
                           ++ "' or missing parameter.")])%list))
    /\ (forall c now s,
           mapping_of cfg c = mapping ->
           exists log,
             tick cfg W (Some c) now s [] = (Return (debounce (Some c) s), log)
             /\ ~ acted log
             /\ last_trigger_time (debounce (Some c) s) = last_trigger_time s).
Proof.
  intros cfg W [action param] F; split.
  - intros l; now apply falls_through_warns.
  - intros c now s Hm.
    destruct (tick_falsy cfg W c now s) as (log & T & A).
    + intros l; rewrite Hm, (falls_through_warns cfg W _ _ l F).
      now eexists _, _.
    + exists log; repeat split; try assumption; apply debounce_time.
Qed.

Lemma fall_through_returns_false_witness :
  falls_through ("say_text", None)
  /\ perform_mapped_action say_config linux_world ("say_text", None) []
     = (Return (PyBool false),
        [EvPrint "[WARN] Unknown action 'say_text' or missing parameter."])
  /\ falls_through ("dance", Some "x")
  /\ mapping_of odd_config 3 = ("dance", Some "x")
  /\ exists log,
       tick odd_config linux_world (Some 3) 13 held_state []
       = (Return (debounce (Some 3) held_state), log)
       /\ ~ acted log
       /\ last_trigger_time (debounce (Some 3) held_state)
          = last_trigger_time held_state.
Proof.
  assert (F : falls_through ("say_text", None)).
  { right; left; split; [reflexivity | now left]. }
  assert (G : falls_through ("dance", Some "x")).
  { right; right; repeat split; discriminate. }
  split; [exact F |].
  split; [apply (proj1 (fall_through_returns_false say_config linux_world _ F) [])
         |].
  split; [exact G |].
  split; [reflexivity |].
  apply (proj2 (fall_through_returns_false odd_config linux_world _ G)
           3 13%Q held_state).
  reflexivity.
Defined.

(** ** Dispatch: faults of the external calls *)

Lemma returns_ret {A} (a : A) : returns (ret a).
Proof. intros l; now exists a, l. Qed.

Lemma returns_bind {A B} (m : M A) (f : A -> M B) :
  returns m -> (forall a, returns (f a)) -> returns (bind m f).
Proof.
  intros Hm Hf l; unfold bind.
  destruct (Hm l) as (a & l' & ->); apply Hf.
Qed.

(** A [try] whose handler does not raise contains every fault of its body. *)
Lemma returns_try_except {A} (m : M A) (h : string -> M A) :
  (forall e, returns (h e)) -> returns (try_except m h).
Proof.
  intros Hh l; unfold try_except.
  destruct (m l) as [[a | e] l']; [now exists a, l' | apply Hh].
Qed.

Lemma returns_print msg : returns (print msg).
Proof. intros l; now eexists _, _. Qed.

Lemma returns_speak W text : returns (speak W text).
Proof. intros l; destruct (speak_returns W text l) as [l' ->]; now eexists _, _. Qed.

#[export] Hint Resolve returns_ret returns_bind returns_try_except returns_print
  returns_speak : log.

Ltac returns_branches :=
  repeat first
    [ solve [auto with log]
    | match goal with
      | |- returns (if ?b then _ else _) => destruct b
      | |- returns (match ?o with _ => _ end) => destruct o
      | |- forall _, _ => intro
      end
    | apply returns_try_except
    | apply returns_bind ].

Lemma returns_launch_program_by_key cfg W key :
  returns (launch_program_by_key cfg W key).
Proof. unfold launch_program_by_key; returns_branches. Qed.

#[export] Hint Resolve returns_launch_program_by_key : log.

Lemma returns_open_program_branch cfg W param :
  returns (open_program_branch cfg W param).
Proof. unfold open_program_branch; returns_branches. Qed.

#[export] Hint Resolve returns_open_program_branch : log.

(** Every tuple except an ["open_url"] with a usable parameter. *)
Lemma returns_perform_mapped_action cfg W action param :
  (action =? "open_url") && opt_truthy param = false ->
  returns (perform_mapped_action cfg W (action, param)).
Proof.
  intros H; unfold perform_mapped_action; rewrite H.
  returns_branches.
Qed.

(** ** Dispatch: launching a program *)

(** Unfolds the monad on the log at hand. *)
Ltac red_m :=
  cbv beta iota zeta
      delta [bind try_except Popen ret print emit popen_calls filter is_popen
             List.length fst snd].

(** Case analysis on the next query of the world made by the dispatch. *)
Ltac oracle :=
  match goal with
  | |- context [Popen_fault ?W ?n ?a] => destruct (Popen_fault W n a) eqn:?
  | |- context [if isabs ?W ?p && path_exists ?W ?p then _ else _] =>
      destruct (isabs W p && path_exists W p) eqn:?
  | |- context [if opt_truthy ?o then _ else _] => destruct (opt_truthy o) eqn:?
  | |- context [match find_executable_for_key ?c ?W ?k with _ => _ end] =>
      destruct (find_executable_for_key c W k) eqn:?
  | |- context [if str_truthy ?c then _ else _] => destruct (str_truthy c) eqn:?
  | |- context [if ?p =? "darwin" then _ else _] => destruct (p =? "darwin") eqn:?
  | |- context [if startswith ?p "linux" then _ else _] =>
      destruct (startswith p "linux") eqn:?
  end;
  red_m; cbn [app].

Lemma opt_truthy_some o :
  opt_truthy o = true ->
  exists x, o = Some x /\ str_truthy x = true /\ param_str o = x.
Proof. destruct o as [x |]; [now exists x | discriminate]. Qed.

(** When the dispatch of a program returns a true value, the last thing
    it did was a [Popen] that did not raise, and the command is the
    parameter itself, the result of the PATH search, the executable
    found through the table, or on macOS [open -a] after the launch of
    that executable raised. *)
Lemma open_program_true cfg W p v log :
  perform_mapped_action cfg W ("open_program", Some p) [] = (Return v, log) ->
  truthy v = true ->
  exists pre argv,
    log = (pre ++ [EvPopen argv true])%list
    /\ ((isabs W p && path_exists W p = true /\ argv = [p])
        \/ (exists x, which W p = Some x /\ str_truthy x = true /\ argv = [x])
        \/ (exists c, find_executable_for_key cfg W p = Some c
                      /\ str_truthy c = true
                      /\ (argv = [c]
                          \/ (sys_platform W = "darwin"
                              /\ argv = ["open"; "-a"; p])))).
Proof.
  change (perform_mapped_action cfg W ("open_program", Some p))
    with (open_program_branch cfg W p).
  unfold open_program_branch, launch_program_by_key; red_m; cbn [app].
  repeat oracle; intros [= <- <-] T; try discriminate T;
    try match goal with
        | H : opt_truthy _ = true |- _ =>
            destruct (opt_truthy_some _ H) as (x & Hx & Hs & ->)
        end;
    try match goal with
        | H : (_ =? "darwin") = true |- _ => apply String.eqb_eq in H
        end.
  all: match goal with
       | |- exists pre argv, ?l = _ /\ _ =>
           let pre := eval cbn [removelast] in (removelast l) in
           exists pre;
           match eval cbn [last] in (last l (EvPrint "")) with
           | EvPopen ?a true => exists a
           end
       end;
    (split; [reflexivity |]).
  all: try (left; split; reflexivity).
  all: try (right; left; eexists; repeat split; eassumption).
  all: right; right; eexists; repeat split; try eassumption; tauto.
Qed.

Lemma first_found_app {A} (f : A -> option string) l1 l2 :
  first_found f (l1 ++ l2)%list
  = match first_found f l1 with
    | Some x => Some x
    | None => first_found f l2
    end.
Proof.
  induction l1 as [| a l1 IH]; [reflexivity |].
  simpl; now destruct (f a).
Qed.

Section Resolution.
Variables (cfg : Config) (W : World).
Hypothesis sane : os_sane W.

Lemma which_truthy name : opt_truthy (which W name) = true <-> which W name <> None.
Proof.
  destruct sane as [_ Hw]; specialize (Hw name).
  destruct (which W name) as [x |]; simpl; [| easy].
  unfold str_truthy; destruct (String.eqb_spec x ""); [congruence | easy].
Qed.

Lemma scan_candidates_spec candidates :
  scan_candidates W candidates = first_found (spec_resolve_candidate W) candidates.
Proof.
  induction candidates as [| c rest IH]; [reflexivity |].
  simpl; unfold spec_resolve_candidate.
  destruct (isabs W c && path_exists W c); [reflexivity |].
  pose proof (which_truthy c) as Hc.
  destruct (opt_truthy (which W c)), (which W c); try reflexivity; try assumption.
  - now destruct (proj1 Hc).
  - assert (false = true) by (apply Hc; discriminate); discriminate.
Qed.

Lemma scan_platform_spec plat items :
  scan_platform W plat items
  = first_found (spec_resolve_candidate W)
      (List.concat (map snd (filter (fun g => startswith plat (fst g)) items))).
Proof.
  induction items as [| [plat_key candidates] rest IH]; [reflexivity |].
  simpl; destruct (startswith plat plat_key); [| assumption].
  simpl; now rewrite first_found_app, scan_candidates_spec, IH.
Qed.

Lemma scan_all_spec values :
  scan_all W values = first_found (spec_resolve_candidate W) (List.concat values).
Proof.
  induction values as [| candidates rest IH]; [reflexivity |].
  simpl; now rewrite first_found_app, scan_candidates_spec, IH.
Qed.

Lemma find_executable_spec key :
  find_executable_for_key cfg W key
  = first_found (spec_resolve_candidate W) (spec_table_candidates cfg W key).
Proof.
  unfold find_executable_for_key, spec_table_candidates.
  now rewrite first_found_app, scan_platform_spec, scan_all_spec.
Qed.

Lemma resolve_candidate_truthy c exe :
  spec_resolve_candidate W c = Some exe -> str_truthy exe = true.
Proof.
  unfold spec_resolve_candidate, str_truthy; destruct sane as [Ha Hw].
  destruct (isabs W c && path_exists W c) eqn:E; intros H.
  - injection H as <-; destruct (String.eqb_spec c ""); [subst | reflexivity].
    now rewrite Ha in E.
  - destruct (String.eqb_spec exe ""); [subst | reflexivity].
    now apply Hw in H.
Qed.

Lemma first_found_truthy candidates exe :
  first_found (spec_resolve_candidate W) candidates = Some exe ->
  str_truthy exe = true.
Proof.
  induction candidates as [| c rest IH]; [discriminate |].
  simpl; destruct (spec_resolve_candidate W c) eqn:E; [| assumption].
  intros [= <-]; now apply resolve_candidate_truthy with c.
Qed.

Lemma found_by_resolves param exe :
  found_by cfg W param exe -> spec_resolve_executable cfg W param <> None.
Proof.
  unfold found_by, spec_resolve_executable.
  intros [[-> _] | [-> | H]]; [discriminate | |].
  - now destruct (isabs W param && path_exists W param).
  - destruct (isabs W param && path_exists W param); [discriminate |].
    destruct (which W param); [discriminate | now rewrite H].
Qed.

(** When no [Popen] raises, the dispatch launches what the three
    strategies resolve, in their order. *)
Lemma open_program_no_fault param :
  (forall n argv, Popen_fault W n argv = None) ->
  perform_mapped_action cfg W ("open_program", Some param) []
  = match spec_resolve_executable cfg W param with
    | Some exe => (Return (PyBool true), [EvPopen [exe] true])
    | None =>
        (Return (PyBool false),
         [EvPrint ("[INFO] No executable found for '" ++ param ++ "'.")])
    end.
Proof.
  intros Hok.
  change (perform_mapped_action cfg W ("open_program", Some param))
    with (open_program_branch cfg W param).
  unfold open_program_branch, launch_program_by_key, spec_resolve_executable.
  rewrite find_executable_spec.
  destruct (isabs W param && path_exists W param).
  - red_m; now rewrite Hok.
  - pose proof (which_truthy param) as Hw.
    destruct (opt_truthy (which W param)), (which W param) as [x |];
      try (now destruct (proj1 Hw));
      try (assert (false = true) by (apply Hw; discriminate); discriminate).
    + red_m; now rewrite Hok.
    + red_m; cbn [app].
      destruct (first_found (spec_resolve_candidate W)
                  (spec_table_candidates cfg W param))
        as [c |] eqn:F; [| reflexivity].
      rewrite (first_found_truthy _ _ F); red_m; now rewrite Hok.
Qed.

(** When no strategy resolves, nothing is launched. *)
Lemma open_program_unresolved param :
  spec_resolve_executable cfg W param = None ->
  perform_mapped_action cfg W ("open_program", Some param) []
  = (Return (PyBool false),
     [EvPrint ("[INFO] No executable found for '" ++ param ++ "'.")]).
Proof.
  change (perform_mapped_action cfg W ("open_program", Some param))
    with (open_program_branch cfg W param).
  unfold open_program_branch, launch_program_by_key, spec_resolve_executable.
  rewrite find_executable_spec.
  destruct (isabs W param && path_exists W param); [discriminate |].
  destruct (which W param); [discriminate |].
  intros ->; reflexivity.
Qed.
End Resolution.

Lemma linux_world_sane : os_sane linux_world.
Proof.
  split; [reflexivity |].
  intros name; simpl; destruct (name =? "code"); discriminate.
Qed.




(** ** Dispatch: speech *)

Lemma say_text_dispatch cfg W text l :
  text <> "" ->
  perform_mapped_action cfg W ("say_text", Some text) l
  = (Return (PyBool true), snd (speak W text l)).
Proof.
  intros Ht; unfold perform_mapped_action; cbn [String.eqb Ascii.eqb Bool.eqb andb].
  unfold opt_truthy, str_truthy; apply String.eqb_neq in Ht; rewrite Ht.
  cbn [negb param_str]; unfold bind.
  destruct (speak_returns W text l) as [l' ->]; reflexivity.
Qed.

(** Without a speech engine the dispatch of a spoken text still returns
    [True], and the iteration records the trigger time. *)
Lemma say_text_without_voice_acts :
  VOICE_AVAILABLE linux_world = false
  /\ perform_mapped_action say_config linux_world ("say_text", Some "hello") []
     = (Return (PyBool true), [])
  /\ tick say_config linux_world (Some 2) 50 two_finger_state []
     = (Return {| last_trigger_time := 50;
                  stable_counter := 6;
                  last_count := Some 2 |},
        [EvCall ("say_text", Some "hello"); EvRet (PyBool true)]).
Proof. repeat split. Qed.

(** C6, amended.  The dispatch of a ["say_text"] tuple with a non-empty
    parameter returns [True] whether or not the speech capability is
    available.  When it is unavailable nothing is spoken and nothing else
    happens; when it is available the text is handed to the engine, and a
    failure of either engine call is swallowed. *)
Theorem say_text_returns_true :
  forall cfg W text l,
    text <> "" ->
    (VOICE_AVAILABLE W = false ->
     perform_mapped_action cfg W ("say_text", Some text) l
     = (Return (PyBool true), l))
    /\ (VOICE_AVAILABLE W = true ->
        exists d,
          perform_mapped_action cfg W ("say_text", Some text) l
          = (Return (PyBool true), (l ++ d)%list)
          /\ (d = [EvSay text false]
              \/ exists ok, d = [EvSay text true; EvRunAndWait ok])).
Proof.
  intros cfg W text l Ht; rewrite (say_text_dispatch cfg W text l Ht).
  unfold speak, try_except, bind, tts_say, tts_runAndWait, ret.
  split; intros ->; cbn [negb]; [reflexivity |].
  destruct (say_fault W text).
  - exists [EvSay text false]; split; [reflexivity | now left].
  - destruct (runAndWait_fault W text); eexists; cbn [snd];
      rewrite <- app_assoc; (split; [reflexivity | right; eexists; reflexivity]).
Qed.

Lemma say_text_returns_true_witness :
  "hello" <> ""
  /\ VOICE_AVAILABLE linux_world = false
  /\ perform_mapped_action say_config linux_world ("say_text", Some "hello") []
     = (Return (PyBool true), [])
  /\ VOICE_AVAILABLE faulty_world = true
  /\ exists d,
       perform_mapped_action say_config faulty_world ("say_text", Some "hello") []
       = (Return (PyBool true), ([] ++ d)%list)
       /\ (d = [EvSay "hello" false]
           \/ exists ok, d = [EvSay "hello" true; EvRunAndWait ok]).
Proof.
  assert (N : "hello" <> "") by discriminate.
  split; [exact N |]; split; [reflexivity |].
  split.
  { apply (proj1 (say_text_returns_true say_config linux_world "hello" [] N)).
    reflexivity. }
  split; [reflexivity |].
  apply (proj2 (say_text_returns_true say_config faulty_world "hello" [] N)).
  reflexivity.
Defined.

(** ** Dispatch: which faults escape *)

(** A fault of [webbrowser.open] leaves [perform_mapped_action] as an
    exception and ends the iteration with it; a fault of the speech
    engine is swallowed and the dispatch returns [True], not [False]. *)
Lemma browser_fault_escapes :
  perform_mapped_action (source_config faulty_world) faulty_world
    ("open_url", Some "https://www.youtube.com/") []
  = (Raise "webbrowser.Error", [EvBrowser "https://www.youtube.com/" false])
  /\ tick (source_config faulty_world) faulty_world (Some 1) 13
       one_finger_state []
     = (Raise "webbrowser.Error",
        [EvCall ("open_url", Some "https://www.youtube.com/");
         EvBrowser "https://www.youtube.com/" false])
  /\ perform_mapped_action say_config faulty_world ("say_text", Some "hello") []
     = (Return (PyBool true), [EvSay "hello" false]).
Proof. repeat split. Qed.

Lemma not_open_url action param :
  ~ (action = "open_url" /\ opt_truthy param = true) ->
  (action =? "open_url") && opt_truthy param = false.
Proof.
  intros H; destruct (String.eqb_spec action "open_url"); [| reflexivity].
  destruct (opt_truthy param); [destruct H; now split | reflexivity].
Qed.

(** C5, amended.  For every tuple other than an ["open_url"] with a usable
    parameter, [perform_mapped_action] returns a value and raises nothing:
    a fault of [subprocess.Popen] is caught inside it, and a fault of the
    speech engine is swallowed.  For ["open_program"], when every launch
    attempted has raised the returned value is false ([False], or [None]
    where no fallback exists for the platform).  For ["say_text"] the
    returned value is [True] even when the speech call has raised. *)
Theorem dispatch_contains_faults :
  forall cfg W action param,
    ~ (action = "open_url" /\ opt_truthy param = true) ->
    (forall l, exists v l',
        perform_mapped_action cfg W (action, param) l = (Return v, l'))
    /\ (forall p v log,
           (action, param) = ("open_program", Some p) ->
           perform_mapped_action cfg W (action, param) [] = (Return v, log) ->
           (forall argv, ~ In (EvPopen argv true) log) ->
           truthy v = false)
    /\ (forall text l,
           (action, param) = ("say_text", Some text) ->
           text <> "" ->
           fst (perform_mapped_action cfg W (action, param) l)
           = Return (PyBool true)).
Proof.
  intros cfg W action param H; split; [| split].
  - apply returns_perform_mapped_action, not_open_url, H.
  - intros p v log [= -> ->] P N.
    destruct (truthy v) eqn:T; [| reflexivity].
    destruct (open_program_true cfg W p v log P T) as (pre & argv & -> & _).
    destruct (N argv); apply in_or_app; right; now left.
  - intros text l [= -> ->] Ht.
    now rewrite (say_text_dispatch cfg W text l Ht).
Qed.

Lemma dispatch_contains_faults_witness :
  ~ ("open_program" = "open_url" /\ opt_truthy (Some "code") = true)
  /\ perform_mapped_action (source_config faulty_world) faulty_world
       ("open_program", Some "code") []
     = (Return (PyBool false),
        [EvPopen ["/usr/bin/code"] false;
         EvPrint "[WARN] Couldn't launch /usr/bin/code: OSError";
         EvPopen ["/usr/bin/code"] false;
         EvPopen ["/usr/bin/code"] false;
         EvPrint "[WARN] Could not launch code: OSError"])
  /\ truthy (PyBool false) = false
  /\ ~ ("say_text" = "open_url" /\ opt_truthy (Some "hello") = true)
  /\ fst (perform_mapped_action say_config faulty_world
            ("say_text", Some "hello") [])
     = Return (PyBool true).
Proof.
  assert (N : ~ ("open_program" = "open_url" /\ opt_truthy (Some "code") = true))
    by (intros [E _]; discriminate E).
  assert (N' : ~ ("say_text" = "open_url" /\ opt_truthy (Some "hello") = true))
    by (intros [E _]; discriminate E).
  split; [exact N |]; split; [reflexivity |].
  split.
  { apply (proj1 (proj2 (dispatch_contains_faults
                           (source_config faulty_world) faulty_world
                           "open_program" (Some "code") N))
             "code" (PyBool false)
             [EvPopen ["/usr/bin/code"] false;
              EvPrint "[WARN] Couldn't launch /usr/bin/code: OSError";
              EvPopen ["/usr/bin/code"] false;
              EvPopen ["/usr/bin/code"] false;
              EvPrint "[WARN] Could not launch code: OSError"]).
    - reflexivity.
    - reflexivity.
    - intros argv; simpl; intuition discriminate. }
  split; [exact N' |].
  apply (proj2 (proj2 (dispatch_contains_faults say_config faulty_world
                         "say_text" (Some "hello") N'))
           "hello" []); [reflexivity | discriminate].
Defined.

(** ** Finger counting *)

Lemma Qltb_iff p q : Qltb p q = true <-> (p < q)%Q.
Proof.
  unfold Qltb; rewrite Qlt_alt.
  destruct (p ?= q)%Q; split; congruence.
Qed.

Lemma bit_one b : bit b = 1 <-> b = true.
Proof. destruct b; simpl; split; congruence. Qed.

Lemma bit_zero b : bit b = 0 <-> b = false.
Proof. destruct b; simpl; split; congruence. Qed.

Lemma bit_range b : bit b = 0 \/ bit b = 1.
Proof. destruct b; [now right | now left]. Qed.

(** The list comprehension succeeds exactly on points that carry both
    attributes, and then keeps positions. *)
Lemma to_pairs_coords hand_landmarks :
  Forall has_coords hand_landmarks ->
  to_pairs hand_landmarks = Return (map coords hand_landmarks).
Proof.
  induction 1 as [| p rest Hp _ IH]; [reflexivity |].
  destruct p as [x y |]; [| now destruct Hp].
  simpl; now rewrite IH.
Qed.

Lemma to_pairs_returns hand_landmarks lm :
  to_pairs hand_landmarks = Return lm ->
  Forall has_coords hand_landmarks.
Proof.
  revert lm; induction hand_landmarks as [| p rest IH]; intros lm H;
    [constructor |].
  destruct p as [x y |]; [| discriminate].
  simpl in H; destruct (to_pairs rest) as [ps | e] eqn:E; [| discriminate].
  constructor; [discriminate | now apply IH with ps].
Qed.

Lemma has_coords_nth hand_landmarks i :
  Forall has_coords hand_landmarks ->
  nth_error hand_landmarks i <> Some NoCoords.
Proof.
  intros C E; apply nth_error_In in E.
  now apply (proj1 (Forall_forall _ _) C) in E.
Qed.

Section FingerBits.
Variable W : World.
Variable hand_landmarks : list lmpt.
Hypothesis with_coords : Forall has_coords hand_landmarks.
Let lm := map coords hand_landmarks.

(** A finger other than the thumb, from the [y] of its own two
    landmarks. *)
Lemma finger_try_readings i :
  finger_try W lm i
  = match y_of hand_landmarks (tip i), y_of hand_landmarks (tip i - 2) with
    | Some a, Some b => option_map bit (py_lt W a b)
    | _, _ => None
    end.
Proof.
  unfold finger_try, lm, item, y_of, obind; rewrite !nth_error_map.
  pose proof (has_coords_nth hand_landmarks (tip i) with_coords) as N1.
  pose proof (has_coords_nth hand_landmarks (tip i - 2) with_coords) as N2.
  destruct (nth_error hand_landmarks (tip i)) as [[x y |] |];
    [| now destruct N1 | reflexivity].
  destruct (nth_error hand_landmarks (tip i - 2)) as [[x' y' |] |];
    [| now destruct N2 | reflexivity].
  cbn [option_map coords snd]; now destruct (py_lt W y y').
Qed.

(** The thumb, from the [x] of landmarks 4 and 3. *)
Lemma thumb_try_readings hand_label :
  thumb_try W lm hand_label
  = match x_of hand_landmarks 4, x_of hand_landmarks 3 with
    | Some a, Some b =>
        option_map bit
          (if uses_right_rule hand_label then py_lt W a b else py_gt W a b)
    | _, _ => None
    end.
Proof.
  unfold thumb_try, lm, item, x_of, obind, uses_right_rule;
    change (tip 0) with 4%nat; change (4 - 1)%nat with 3%nat;
    rewrite !nth_error_map.
  pose proof (has_coords_nth hand_landmarks 4 with_coords) as N1.
  pose proof (has_coords_nth hand_landmarks 3 with_coords) as N2.
  destruct (nth_error hand_landmarks 4) as [[x y |] |];
    [| now destruct N1 | reflexivity].
  destruct (nth_error hand_landmarks 3) as [[x' y' |] |];
    [| now destruct N2 | reflexivity].
  cbn [option_map coords fst].
  destruct hand_label as [l |];
    [destruct (l =? "Right") |];
    (destruct (py_lt W x x'); reflexivity)
    || (destruct (py_gt W x x'); reflexivity).
Qed.
End FingerBits.

Lemma or_zero_finger_range W lm i :
  or_zero (finger_try W lm i) = 0 \/ or_zero (finger_try W lm i) = 1.
Proof.
  unfold finger_try, obind.
  destruct (item lm (tip i)) as [pt |]; [| now left].
  destruct (item lm (tip i - 2)) as [pp |]; [| now left].
  destruct (py_lt W (snd pt) (snd pp)); [apply bit_range | now left].
Qed.

Lemma or_zero_thumb_range W lm hand_label :
  or_zero (thumb_try W lm hand_label) = 0
  \/ or_zero (thumb_try W lm hand_label) = 1.
Proof.
  unfold thumb_try, obind.
  destruct (item lm (tip 0)) as [p4 |]; [| now left].
  destruct (item lm (tip 0 - 1)) as [p3 |]; [| now left].
  destruct (match hand_label with Some l => l | None => "Right" end =? "Right").
  - destruct (py_lt W (fst p4) (fst p3)); [apply bit_range | now left].
  - destruct (py_gt W (fst p4) (fst p3)); [apply bit_range | now left].
Qed.

Lemma count_fingers_on_coords W hand_landmarks hand_label :
  Forall has_coords hand_landmarks ->
  count_fingers_from_landmarks W hand_landmarks hand_label
  = Return (sum (fingers_of W (map coords hand_landmarks) hand_label),
            fingers_of W (map coords hand_landmarks) hand_label).
Proof.
  intros H; unfold count_fingers_from_landmarks.
  now rewrite (to_pairs_coords hand_landmarks H).
Qed.

(** C8.  With landmark 4 the thumb tip and landmark 3 its inner joint,
    the thumb bit of the returned vector is 0 or 1, and it is 1 iff the
    tip's x is less than the joint's x for the label ["Right"], iff the
    tip's x is greater than the joint's x for the label ["Left"], and by
    the rule of the right hand when the label is unknown ([None]). *)
Theorem thumb_bit_by_handedness :
  forall W hand_landmarks hand_label n fingers tx ix,
    count_fingers_from_landmarks W hand_landmarks hand_label
    = Return (n, fingers) ->
    x_of hand_landmarks 4 = Some (Num tx) ->
    x_of hand_landmarks 3 = Some (Num ix) ->
    exists thumb rest,
      fingers = thumb :: rest
      /\ (thumb = 0 \/ thumb = 1)
      /\ (hand_label = Some "Right" -> (thumb = 1 <-> (tx < ix)%Q))
      /\ (hand_label = Some "Left" -> (thumb = 1 <-> (ix < tx)%Q))
      /\ (hand_label = None -> (thumb = 1 <-> (tx < ix)%Q)).
Proof.
  intros W hand_landmarks hand_label n fingers tx ix H Ht Hi.
  assert (C : Forall has_coords hand_landmarks).
  { unfold count_fingers_from_landmarks in H.
    destruct (to_pairs hand_landmarks) as [lm | e] eqn:E; [| discriminate].
    now apply to_pairs_returns with lm. }
  rewrite (count_fingers_on_coords W _ hand_label C) in H.
  injection H as _ <-; unfold fingers_of.
  rewrite (thumb_try_readings W hand_landmarks C hand_label), Ht, Hi.
  eexists _, _; split; [reflexivity |]; cbn [py_lt py_gt].
  split; [destruct (uses_right_rule hand_label); apply bit_range |].
  split; [| split]; intros E; subst hand_label;
    cbn [uses_right_rule String.eqb Ascii.eqb Bool.eqb option_map or_zero];
    rewrite bit_one; apply Qltb_iff.
Qed.

Lemma thumb_bit_by_handedness_witness :
  count_fingers_from_landmarks linux_world partial_hand (Some "Right")
  = Return (3, [1; 1; 1; 0; 0])
  /\ x_of partial_hand 4 = Some (Num 0.3)
  /\ x_of partial_hand 3 = Some (Num 0.35)
  /\ exists thumb rest,
       [1; 1; 1; 0; 0] = thumb :: rest
       /\ (thumb = 0 \/ thumb = 1)
       /\ (Some "Right" = Some "Right" -> (thumb = 1 <-> (0.3 < 0.35)%Q))
       /\ (Some "Right" = Some "Left" -> (thumb = 1 <-> (0.35 < 0.3)%Q))
       /\ (Some "Right" = None -> (thumb = 1 <-> (0.3 < 0.35)%Q)).
Proof.
  split; [reflexivity |]; split; [reflexivity |]; split; [reflexivity |].
  apply (thumb_bit_by_handedness linux_world partial_hand (Some "Right") 3
           [1; 1; 1; 0; 0] 0.3 0.35); reflexivity.
Defined.




(** * Further properties of the code *)

(** ** States of the loop *)

Lemma debounce_last_count c s : last_count (debounce (Some c) s) = Some c.
Proof.
  simpl; unfold stability_logic.
  destruct (count_eqb c (last_count s)) eqn:E; [| reflexivity].
  now apply count_eqb_true in E.
Qed.

Lemma debounce_wf count s : wf_state s -> wf_state (debounce count s).
Proof.
  intros H; destruct count as [c |]; [| now left].
  right; exists c; split; [apply debounce_last_count |].
  simpl; unfold stability_logic.
  destruct (count_eqb c (last_count s)) eqn:E; simpl; [| lia].
  apply count_eqb_true in E.
  destruct H as [[H _] | (c' & _ & H)]; [congruence | lia].
Qed.

Lemma wf_state_fields s s' :
  stable_counter s' = stable_counter s ->
  last_count s' = last_count s ->
  wf_state s -> wf_state s'.
Proof. unfold wf_state; intros -> ->; exact (fun H => H). Qed.

Lemma tick_wf cfg W count now s l s' l' :
  wf_state s ->
  tick cfg W count now s l = (Return s', l') ->
  wf_state s'.
Proof.
  intros H T; destruct (tick_debounce _ _ _ _ _ _ _ _ T) as [Hc Hl].
  apply (wf_state_fields (debounce count s)); auto using debounce_wf.
Qed.

Lemma run_wf cfg ticks : forall s s' logs,
  wf_state s ->
  run cfg ticks s = (Return s', logs) ->
  wf_state s'.
Proof.
  induction ticks as [| [[W count] now] rest IH]; intros s s' logs H R.
  - simpl in R; now injection R as <- _.
  - cbn [run] in R.
    destruct (tick cfg W count now s []) as [[s1 | e] log] eqn:T; [| discriminate].
    destruct (run cfg rest s1) as [r logs'] eqn:R'.
    injection R as -> _.
    apply (IH s1 s' logs'); [now apply (tick_wf _ _ _ _ _ _ _ _ H T) | exact R'].
Qed.

(** Extraction followed by the state update. *)
Lemma main_step_tick cfg W f now s l :
  main_step cfg W f now s l
  = match count_of_frame W f with
    | Some count => tick cfg W count now s l
    | None => (Raise "AttributeError", l)
    end.
Proof.
  destruct f as [| hand_landmarks hand_label]; [reflexivity |].
  unfold main_step, count_of_frame, count_fingers_from_landmarks.
  destruct (to_pairs hand_landmarks) as [lm | e] eqn:E; [reflexivity |].
  f_equal; f_equal.
  revert e E; induction hand_landmarks as [| p rest IH]; intros e E;
    [discriminate |].
  destruct p as [x y |]; [| now injection E as <-].
  simpl in E; destruct (to_pairs rest) as [ps | e'] eqn:E'; [discriminate |].
  injection E as <-; now apply IH.
Qed.

Lemma main_loop_wf cfg caps : forall s,
  wf_state s -> wf_state (final_state (main_loop cfg caps s)).
Proof.
  induction caps as [| c rest IH]; intros s H; [exact H |].
  cbn [main_loop]; destruct (c_ret c); cbn [negb]; [| exact H].
  rewrite main_step_tick.
  destruct (count_of_frame (c_world c) (c_frame c)) as [count |]; [| exact H].
  destruct (tick cfg (c_world c) count (c_now c) s []) as [[s1 | e] log] eqn:T;
    [| exact H].
  pose proof (tick_wf _ _ _ _ _ _ _ _ H T) as H1.
  destruct (quit_pressed (c_waitKey c)); [exact H1 | now apply IH].
Qed.

(** X1.  Whatever the frames, the clock, the world and the keys, the
    state in which [main] leaves its loop has either no remembered count
    and a counter at 0, or a remembered count and a counter of at least
    1; the same holds after any run of the loop body from such a state.
    In particular the counter is never negative and it is 0 exactly when
    no count is remembered. *)
Theorem loop_state_invariant :
  (forall cfg caps r,
      snd (main cfg true caps) = Some r ->
      wf_state (final_state r)
      /\ 0 <= stable_counter (final_state r)
      /\ (stable_counter (final_state r) = 0
          <-> last_count (final_state r) = None))
  /\ (forall cfg ticks s s' logs,
         wf_state s ->
         run cfg ticks s = (Return s', logs) ->
         wf_state s').
Proof.
  split.
  - intros cfg caps r [= <-].
    assert (H : wf_state (final_state (main_loop cfg caps initial_state)))
      by (apply main_loop_wf; now left).
    split; [exact H |].
    destruct H as [[Hl Hc] | (c & Hl & Hc)]; rewrite Hl.
    + rewrite Hc; split; [lia | split; reflexivity].
    + split; [lia | split; [lia | discriminate]].
  - intros cfg ticks s s' logs; apply run_wf.
Qed.

Lemma loop_state_invariant_witness :
  wf_state held_state
  /\ wf_state {| last_trigger_time := 13;
                 stable_counter := 7;
                 last_count := Some 3 |}
  /\ wf_state
       (final_state
          (main_loop (source_config linux_world)
             [hold_capture; quit_capture; hold_capture] initial_state)).
Proof.
  assert (H : wf_state held_state)
    by (right; exists 3; split; [reflexivity | simpl; lia]).
  split; [exact H |]; split.
  - apply (proj2 loop_state_invariant (source_config linux_world)
             [(linux_world, Some 3, 13%Q)] held_state _
             [[EvCall ("open_program", Some "code");
               EvPopen ["/usr/bin/code"] true;
               EvRet (PyBool true)]] H).
    reflexivity.
  - apply (proj1 loop_state_invariant (source_config linux_world)
             [hold_capture; quit_capture; hold_capture]).
    reflexivity.
Defined.

(** ** Frames that cannot trigger *)

Lemma unstable_tick cfg W count now s :
  is_stable cfg (debounce count s) = false ->
  tick cfg W count now s [] = (Return (debounce count s), []).
Proof.
  destruct count as [c |]; [| reflexivity].
  intros H; cbn [tick debounce] in *; unfold trigger; now rewrite H.
Qed.

Lemma debounce_counter_step count s :
  0 <= stable_counter s ->
  0 <= stable_counter (debounce count s) <= stable_counter s + 1.
Proof.
  intros H; destruct count as [c |]; simpl; [| lia].
  unfold stability_logic; destruct (count_eqb c (last_count s)); simpl; lia.
Qed.

Lemma warm_up_run cfg ticks : forall s,
  0 <= stable_counter s ->
  stable_counter s + Z.of_nat (List.length ticks) < STABLE_FRAMES cfg ->
  exists s',
    run cfg ticks s = (Return s', map (fun _ => []) ticks)
    /\ last_trigger_time s' = last_trigger_time s.
Proof.
  induction ticks as [| [[W count] now] rest IH]; intros s H0 Hlen.
  - now exists s.
  - cbn [List.length] in Hlen; rewrite Nat2Z.inj_succ in Hlen.
    pose proof (debounce_counter_step count s H0) as Hd.
    assert (U : is_stable cfg (debounce count s) = false)
      by (apply Z.leb_gt; lia).
    destruct (IH (debounce count s)) as (s' & R & E); [lia | lia |].
    exists s'; cbn [run map]; rewrite (unstable_tick _ _ _ _ _ U), R.
    now rewrite E, debounce_time.
Qed.

(** X2.  A count must be held before anything happens.  From a state
    whose counter is [n >= 0], the next frames do nothing but count, as
    long as [n] plus their number stays below [STABLE_FRAMES]: no
    dispatch, no print, no external call, and [last_trigger_time] is
    kept.  A frame without a hand, and a frame whose count differs from
    the remembered one, restart the wait: after it, fewer than
    [STABLE_FRAMES - 1] further frames cannot trigger anything, whatever
    their counts and clock readings. *)
Theorem no_trigger_before_stable :
  (forall cfg ticks s,
      0 <= stable_counter s ->
      stable_counter s + Z.of_nat (List.length ticks) < STABLE_FRAMES cfg ->
      exists s',
        run cfg ticks s = (Return s', map (fun _ => []) ticks)
        /\ last_trigger_time s' = last_trigger_time s)
  /\ (forall cfg W count now ticks s,
         count = None \/ last_count s <> count ->
         1 + Z.of_nat (List.length ticks) < STABLE_FRAMES cfg ->
         exists s',
           run cfg ((W, count, now) :: ticks) s
           = (Return s', [] :: map (fun _ => []) ticks)
           /\ last_trigger_time s' = last_trigger_time s).
Proof.
  split; [exact warm_up_run |].
  intros cfg W count now ticks s Hc Hlen.
  assert (Hd : 0 <= stable_counter (debounce count s) <= 1).
  { destruct count as [c |]; [| simpl; lia].
    destruct Hc as [Hc | Hc]; [discriminate |].
    rewrite debounce_other by exact Hc; simpl; lia. }
  assert (U : is_stable cfg (debounce count s) = false)
    by (apply Z.leb_gt; lia).
  destruct (warm_up_run cfg ticks (debounce count s)) as (s' & R & E);
    [lia | lia |].
  exists s'; cbn [run]; rewrite (unstable_tick _ _ _ _ _ U), R.
  now rewrite E, debounce_time.
Qed.

Lemma no_trigger_before_stable_witness :
  exists s',
    run (source_config linux_world)
        [(linux_world, Some 2, 100%Q); (linux_world, Some 2, 101%Q);
         (linux_world, Some 2, 102%Q); (linux_world, Some 2, 103%Q);
         (linux_world, Some 2, 104%Q)] held_state
    = (Return s', [[]; []; []; []; []])
    /\ last_trigger_time s' = last_trigger_time held_state.
Proof.
  apply (proj2 no_trigger_before_stable (source_config linux_world)
           linux_world (Some 2) 100%Q
           [(linux_world, Some 2, 101%Q); (linux_world, Some 2, 102%Q);
            (linux_world, Some 2, 103%Q); (linux_world, Some 2, 104%Q)]
           held_state).
  - right; simpl; discriminate.
  - simpl; lia.
Defined.

(** ** Dispatches that fail and dispatches that act *)

(** X3.  A dispatch that returns a false value costs nothing: the
    trigger time is kept, and if the same count is still shown at the
    next frame, at a clock reading that is not earlier, the action is
    dispatched again at once. *)
Theorem failed_dispatch_is_retried :
  forall cfg W W' c now now' s s' log,
    tick cfg W (Some c) now s [] = (Return s', log) ->
    dispatched log ->
    ~ acted log ->
    (now <= now')%Q ->
    last_trigger_time s' = last_trigger_time s
    /\ dispatched (snd (tick cfg W' (Some c) now' s' [])).
Proof.
  intros cfg W W' c now now' s s' log T D NA Hnow.
  destruct (tick_dispatch_guard _ _ _ _ _ _ _ T D) as [G _].
  apply guard_iff in G; destruct G as [Gs Gc].
  destruct (tick_debounce _ _ _ _ _ _ _ _ T) as [Hc Hl].
  destruct (tick_time _ _ _ _ _ _ _ T) as [E | (_ & _ & A)]; [| contradiction].
  split; [exact E |].
  apply held_fires.
  - rewrite Hl; apply debounce_last_count.
  - rewrite Hc; lia.
  - apply cooldown_passed_iff; rewrite E; lra.
Qed.

Lemma failed_dispatch_is_retried_witness :
  tick (source_config linux_world) linux_world (Some 2) 20 two_finger_state []
  = (Return {| last_trigger_time := 0;
               stable_counter := 6;
               last_count := Some 2 |},
     [EvCall ("open_program", Some "chrome");
      EvPrint "[INFO] No executable found for 'chrome'.";
      EvRet (PyBool false)])
  /\ dispatched
       (snd (tick (source_config linux_world) linux_world (Some 2) 20
               {| last_trigger_time := 0;
                  stable_counter := 6;
                  last_count := Some 2 |} [])).
Proof.
  split; [reflexivity |].
  apply (failed_dispatch_is_retried (source_config linux_world) linux_world
           linux_world 2 20%Q 20%Q two_finger_state _
           [EvCall ("open_program", Some "chrome");
            EvPrint "[INFO] No executable found for 'chrome'.";
            EvRet (PyBool false)]).
  - reflexivity.
  - eexists; simpl; left; reflexivity.
  - intros (v & Hin & Hv); simpl in Hin.
    destruct Hin as [Hin | [Hin | [Hin | []]]]; try discriminate.
    injection Hin as <-; discriminate.
  - unfold Qle; simpl; lia.
Defined.

Lemma cooling_tick cfg W count now s :
  (now - last_trigger_time s < COOLDOWN_SECONDS cfg)%Q ->
  tick cfg W count now s [] = (Return (debounce count s), []).
Proof.
  intros H; destruct count as [c |]; [| reflexivity].
  apply quiet_tick, cooldown_passed_false_iff, H.
Qed.

Lemma cooling_run cfg ticks : forall s,
  Forall (fun t => (time_of t - last_trigger_time s < COOLDOWN_SECONDS cfg)%Q)
         ticks ->
  exists s',
    run cfg ticks s = (Return s', map (fun _ => []) ticks)
    /\ last_trigger_time s' = last_trigger_time s.
Proof.
  induction ticks as [| [[W count] now] rest IH]; intros s H.
  - now exists s.
  - inversion H as [| t ts Ht Hrest]; subst; unfold time_of in Ht; simpl in Ht.
    destruct (IH (debounce count s)) as (s' & R & E).
    + now rewrite debounce_time.
    + exists s'; cbn [run map]; rewrite (cooling_tick _ _ _ _ _ Ht), R.
      now rewrite E, debounce_time.
Qed.

(** X4.  While the cooldown runs nothing is dispatched, whatever is
    shown: over frames whose clock readings all lie less than
    [COOLDOWN_SECONDS] after [last_trigger_time], the loop makes no
    external call and prints nothing, for every sequence of counts, and
    [last_trigger_time] is kept. *)
Theorem nothing_happens_during_cooldown :
  forall cfg ticks s,
    Forall (fun t => (time_of t - last_trigger_time s < COOLDOWN_SECONDS cfg)%Q)
           ticks ->
    exists s',
      run cfg ticks s = (Return s', map (fun _ => []) ticks)
      /\ last_trigger_time s' = last_trigger_time s.
Proof. exact cooling_run. Qed.

Lemma nothing_happens_during_cooldown_witness :
  exists s',
    run (source_config linux_world)
        [(linux_world, Some 3, 11%Q); (linux_world, None, 11.5%Q);
         (linux_world, Some 1, 12.9%Q)] held_state
    = (Return s', [[]; []; []])
    /\ last_trigger_time s' = last_trigger_time held_state.
Proof.
  apply (nothing_happens_during_cooldown (source_config linux_world)
           [(linux_world, Some 3, 11%Q); (linux_world, None, 11.5%Q);
            (linux_world, Some 1, 12.9%Q)] held_state).
  repeat constructor; unfold Qlt; simpl; lia.
Defined.

Lemma run_time_monotone cfg ticks : forall s s' logs,
  (0 <= COOLDOWN_SECONDS cfg)%Q ->
  run cfg ticks s = (Return s', logs) ->
  (last_trigger_time s <= last_trigger_time s')%Q.
Proof.
  induction ticks as [| [[W count] now] rest IH]; intros s s' logs HC R.
  - simpl in R; injection R as <- _; apply Qle_refl.
  - cbn [run] in R.
    destruct (tick cfg W count now s []) as [[s1 | e] log] eqn:T; [| discriminate].
    destruct (run cfg rest s1) as [r logs'] eqn:R'.
    injection R as -> _.
    apply Qle_trans with (last_trigger_time s1); [| now apply (IH s1 s' logs')].
    destruct (tick_time _ _ _ _ _ _ _ T) as [E | (E & D & _)].
    + rewrite E; apply Qle_refl.
    + destruct (tick_dispatch_guard _ _ _ _ _ _ _ T D) as [G _].
      apply guard_iff in G; destruct G as [_ G]; rewrite E; lra.
Qed.

Lemma acted_dispatched cfg W count now s r log :
  tick cfg W count now s [] = (r, log) -> acted log -> dispatched log.
Proof.
  intros T (v & Hin & _).
  pose proof (tick_cases cfg W count now s []) as O; rewrite T in O.
  inversion O; subst; [destruct Hin | | |]; eexists; simpl; left; reflexivity.
Qed.

(** X5.  Two recorded triggers are at least [COOLDOWN_SECONDS] apart:
    when a dispatch acts, the new [last_trigger_time] exceeds the old one
    by at least [COOLDOWN_SECONDS].  Hence, with a cooldown that is not
    negative, [last_trigger_time] never decreases over a run of the
    loop, even when the clock readings do. *)
Theorem recorded_times_are_spaced :
  (forall cfg W count now s s' log,
      tick cfg W count now s [] = (Return s', log) ->
      acted log ->
      (COOLDOWN_SECONDS cfg <= last_trigger_time s' - last_trigger_time s)%Q)
  /\ (forall cfg ticks s s' logs,
         (0 <= COOLDOWN_SECONDS cfg)%Q ->
         run cfg ticks s = (Return s', logs) ->
         (last_trigger_time s <= last_trigger_time s')%Q).
Proof.
  split; [| exact run_time_monotone].
  intros cfg W count now s s' log T A.
  rewrite (tick_acted_records _ _ _ _ _ _ _ T A).
  pose proof (acted_dispatched _ _ _ _ _ _ _ T A) as D.
  destruct (tick_dispatch_guard _ _ _ _ _ _ _ T D) as [G _].
  now apply guard_iff in G.
Qed.

Lemma recorded_times_are_spaced_witness :
  (COOLDOWN_SECONDS (source_config linux_world) <= 13 - 10)%Q
  /\ (last_trigger_time held_state <= 13)%Q.
Proof.
  assert (T : tick (source_config linux_world) linux_world (Some 3) 13
                held_state []
              = (Return {| last_trigger_time := 13;
                           stable_counter := 7;
                           last_count := Some 3 |},
                 [EvCall ("open_program", Some "code");
                  EvPopen ["/usr/bin/code"] true;
                  EvRet (PyBool true)])) by reflexivity.
  split.
  - apply (proj1 recorded_times_are_spaced _ _ _ _ _ _ _ T).
    exists (PyBool true); split; [simpl; tauto | reflexivity].
  - apply (proj2 recorded_times_are_spaced (source_config linux_world)
             [(linux_world, Some 3, 13%Q)] held_state
             {| last_trigger_time := 13;
                stable_counter := 7;
                last_count := Some 3 |}
             [[EvCall ("open_program", Some "code");
               EvPopen ["/usr/bin/code"] true;
               EvRet (PyBool true)]]).
    + unfold Qle; simpl; lia.
    + reflexivity.
Defined.

(** ** The number in the top bar *)

Lemma py_max_spec a b :
  (py_max a b = b /\ (a < b)%Q) \/ (py_max a b = a /\ (b <= a)%Q).
Proof.
  unfold py_max; destruct (Qltb a b) eqn:E.
  - left; split; [reflexivity | now apply Qltb_iff].
  - right; split; [reflexivity |].
    apply Qnot_lt_le; intros H; apply Qltb_iff in H; congruence.
Qed.

(** X6.  The remaining cooldown drawn on the frame agrees with the
    trigger test: for the same clock reading it is never negative, it is
    0 exactly when the cooldown test of the trigger passes, and
    otherwise it is [COOLDOWN_SECONDS] minus the time elapsed since
    [last_trigger_time]. *)
Theorem hud_matches_gate :
  forall cfg now last,
    (0 <= cooldown_remaining cfg now last)%Q
    /\ ((cooldown_remaining cfg now last == 0)%Q
        <-> cooldown_passed cfg now last = true)
    /\ (cooldown_passed cfg now last = false ->
        cooldown_remaining cfg now last
        = (COOLDOWN_SECONDS cfg - (now - last))%Q).
Proof.
  intros cfg now last; unfold cooldown_remaining.
  destruct (py_max_spec 0 (COOLDOWN_SECONDS cfg - (now - last)))
    as [[E H] | [E H]]; rewrite E.
  - split; [lra | split].
    + rewrite cooldown_passed_iff; split; intros; lra.
    + reflexivity.
  - split; [lra | split].
    + rewrite cooldown_passed_iff; split; intros; lra.
    + rewrite cooldown_passed_false_iff; intros; lra.
Qed.

Lemma hud_matches_gate_witness :
  cooldown_passed (source_config linux_world) 11 10 = false
  /\ cooldown_remaining (source_config linux_world) 11 10 = (3 - (11 - 10))%Q.
Proof.
  split; [reflexivity |].
  apply (proj2 (proj2 (hud_matches_gate (source_config linux_world) 11 10))).
  reflexivity.
Defined.

(** ** What one dispatch does to the outside *)

Lemma launches_tidy_spec log :
  launches_tidy log = true ->
  (popen_calls log <= 3)%nat
  /\ (List.length (filter is_started log) <= 1)%nat
  /\ (forall pre argv post,
         log = (pre ++ EvPopen argv true :: post)%list -> post = []).
Proof.
  unfold launches_tidy; rewrite andb_true_iff, Nat.leb_le, forallb_forall.
  intros [Hn Hq]; split; [exact Hn |].
  assert (F : filter is_started (removelast log) = []).
  { induction (removelast log) as [| e l IH]; [reflexivity |].
    simpl; rewrite (proj1 (negb_true_iff _) (Hq e (or_introl eq_refl))).
    apply IH; intros x Hx; apply Hq; now right. }
  split.
  - destruct log as [| e0 l0] using rev_ind; [simpl; lia |].
    rewrite removelast_last in F.
    rewrite filter_app, F; simpl; destruct (is_started e0); simpl; lia.
  - intros pre argv post ->.
    destruct post as [| p post]; [reflexivity |].
    rewrite removelast_app in F by discriminate.
    rewrite filter_app in F; cbn [removelast filter is_started] in F.
    apply app_eq_nil in F; destruct F as [_ F]; discriminate F.
Qed.

(** X7.  One dispatch of a program starts at most one process.
    Whatever the parameter and the world, [perform_mapped_action] on an
    ["open_program"] tuple calls [subprocess.Popen] at most three times,
    at most one of these calls succeeds, and a call that succeeds is the
    last thing the dispatch does. *)
Theorem dispatch_starts_at_most_one_process :
  forall cfg W param r log,
    perform_mapped_action cfg W ("open_program", param) [] = (r, log) ->
    (popen_calls log <= 3)%nat
    /\ (List.length (filter is_started log) <= 1)%nat
    /\ (forall pre argv post,
           log = (pre ++ EvPopen argv true :: post)%list -> post = []).
Proof.
  intros cfg W param r log H; apply launches_tidy_spec; revert H.
  destruct param as [p |]; [| now intros [= <- <-]].
  change (perform_mapped_action cfg W ("open_program", Some p))
    with (open_program_branch cfg W p).
  unfold open_program_branch, launch_program_by_key; red_m; cbn [app].
  repeat oracle; now intros [= <- <-].
Qed.

Lemma dispatch_starts_at_most_one_process_witness :
  (popen_calls
     [EvPopen ["/usr/bin/code"] false;
      EvPrint "[WARN] Couldn't launch /usr/bin/code: OSError";
      EvPopen ["/usr/bin/code"] false;
      EvPopen ["/usr/bin/code"] false;
      EvPrint "[WARN] Could not launch code: OSError"] <= 3)%nat
  /\ (List.length
        (filter is_started
           [EvPopen
              ["/Applications/Google Chrome.app/Contents/MacOS/Google Chrome"]
              false;
            EvPopen ["open"; "-a"; "chrome"] true]) <= 1)%nat.
Proof.
  split.
  - apply (dispatch_starts_at_most_one_process
             (source_config faulty_world) faulty_world
             (Some "code") (Return (PyBool false))).
    reflexivity.
  - apply (dispatch_starts_at_most_one_process
             (source_config mac_world) mac_world
             (Some "chrome") (Return (PyBool true))).
    reflexivity.
Defined.

(** X8.  [launch_program_by_key] returns [None], not [False], in exactly
    one situation: an executable was found, its launch raised, and the
    platform is neither ["darwin"] nor one starting with ["linux"].  It
    has then made that one [Popen] call and printed no diagnostic; the
    main loop treats the [None] as "not acted". *)
Theorem launch_returns_none_without_fallback :
  forall cfg W key l v l',
    launch_program_by_key cfg W key l = (Return v, l') ->
    (v = PyNone
     <-> exists c e,
          find_executable_for_key cfg W key = Some c
          /\ str_truthy c = true
          /\ Popen_fault W (popen_calls l) [c] = Some e
          /\ sys_platform W <> "darwin"
          /\ startswith (sys_platform W) "linux" = false)
    /\ (v = PyNone ->
        truthy v = false
        /\ exists c, l' = (l ++ [EvPopen [c] false])%list).
Proof.
  intros cfg W key l v l'.
  unfold launch_program_by_key.
  remember (popen_calls l) as n eqn:En.
  assert (Hn : forall argv,
             Popen W argv l
             = match Popen_fault W n argv with
               | None => (Return tt, (l ++ [EvPopen argv true])%list)
               | Some e => (Raise e, (l ++ [EvPopen argv false])%list)
               end) by (intros argv; unfold Popen; now rewrite En).
  clear En.
  destruct (find_executable_for_key cfg W key) as [c |] eqn:F.
  2: { red_m; intros [= <- <-]; split; [split |]; try discriminate.
       intros (c & e & Hc & _); discriminate. }
  destruct (str_truthy c) eqn:Tc.
  2: { red_m; intros [= <- <-]; split; [split |]; try discriminate.
       intros (c' & e & [= <-] & Hc & _); congruence. }
  unfold try_except at 1, bind at 1; rewrite Hn.
  destruct (Popen_fault W n [c]) as [e |] eqn:P.
  2: { red_m; intros [= <- <-]; split; [split |]; try discriminate.
       intros (c' & e & [= <-] & _ & Hp & _); congruence. }
  destruct (String.eqb_spec (sys_platform W) "darwin") as [D | D].
  { red_m.
    destruct (Popen_fault W _ ["open"; "-a"; key]);
      intros [= <- <-]; (split; [split |]); try discriminate;
      intros (c' & e' & _ & _ & _ & N & _); contradiction. }
  destruct (startswith (sys_platform W) "linux") eqn:L.
  { red_m.
    match goal with
    | |- context [match Popen_fault W ?k [c] with _ => _ end] =>
        destruct (Popen_fault W k [c])
    end;
      intros [= <- <-]; (split; [split |]); try discriminate;
      intros (c' & e' & _ & _ & _ & _ & N); discriminate. }
  red_m; intros [= <- <-]; split; [split |].
  - intros _; exists c, e; repeat split; assumption.
  - reflexivity.
  - intros _; split; [reflexivity | now exists c].
Qed.

Lemma launch_returns_none_without_fallback_witness :
  launch_program_by_key (source_config windows_world) windows_world "chrome" []
  = (Return PyNone,
     [EvPopen ["C:\Program Files\Google\Chrome\Application\chrome.exe"] false])
  /\ truthy PyNone = false.
Proof.
  split; [reflexivity |].
  apply (proj2 (launch_returns_none_without_fallback
                  (source_config windows_world) windows_world "chrome" []
                  PyNone
                  [EvPopen
                     ["C:\Program Files\Google\Chrome\Application\chrome.exe"]
                     false]
                  eq_refl) eq_refl).
Defined.

(** ** The lookup table *)

Lemma scan_candidates_sound W candidates r :
  scan_candidates W candidates = Some r ->
  exists c,
    In c candidates
    /\ ((isabs W c && path_exists W c = true /\ r = c)
        \/ (which W c = Some r /\ str_truthy r = true)).
Proof.
  induction candidates as [| c rest IH]; [discriminate |].
  simpl; destruct (isabs W c && path_exists W c) eqn:A.
  - intros [= <-]; exists c; split; [now left | left; now split].
  - destruct (opt_truthy (which W c)) eqn:T.
    + intros E; exists c; split; [now left | right; split; [exact E |]].
      rewrite E in T; exact T.
    + intros E; destruct (IH E) as (c' & Hin & H); exists c'; split;
        [now right | exact H].
Qed.

Lemma scan_candidates_none W candidates :
  scan_candidates W candidates = None <->
  forall c, In c candidates ->
            isabs W c && path_exists W c = false
            /\ opt_truthy (which W c) = false.
Proof.
  induction candidates as [| c rest IH]; simpl.
  - split; [intros _ c [] | reflexivity].
  - destruct (isabs W c && path_exists W c) eqn:A.
    + split; [discriminate |].
      intros H; destruct (H c (or_introl eq_refl)) as [H' _]; congruence.
    + destruct (opt_truthy (which W c)) eqn:T.
      * split.
        -- intros E; rewrite E in T; discriminate.
        -- intros H; destruct (H c (or_introl eq_refl)) as [_ H']; congruence.
      * rewrite IH; split.
        -- intros H c' [<- | Hin]; [now split | now apply H].
        -- intros H c' Hin; apply H; now right.
Qed.

Lemma scan_all_sound W values r :
  scan_all W values = Some r ->
  exists c,
    In c (List.concat values)
    /\ ((isabs W c && path_exists W c = true /\ r = c)
        \/ (which W c = Some r /\ str_truthy r = true)).
Proof.
  induction values as [| candidates rest IH]; [discriminate |].
  simpl; destruct (scan_candidates W candidates) as [r' |] eqn:S.
  - intros [= <-]; destruct (scan_candidates_sound _ _ _ S) as (c & Hin & H).
    exists c; split; [apply in_or_app; now left | exact H].
  - intros E; destruct (IH E) as (c & Hin & H).
    exists c; split; [apply in_or_app; now right | exact H].
Qed.

Lemma scan_all_none W values :
  scan_all W values = None <->
  forall c, In c (List.concat values) ->
            isabs W c && path_exists W c = false
            /\ opt_truthy (which W c) = false.
Proof.
  induction values as [| candidates rest IH]; simpl.
  - split; [intros _ c [] | reflexivity].
  - destruct (scan_candidates W candidates) as [r' |] eqn:S.
    + split; [discriminate |].
      intros H.
      assert (N : scan_candidates W candidates = None).
      { apply scan_candidates_none; intros c Hin; apply H, in_or_app; now left. }
      congruence.
    + rewrite IH; pose proof (proj1 (scan_candidates_none _ _) S) as S'; split.
      * intros H c Hin; apply in_app_or in Hin; destruct Hin; auto.
      * intros H c Hin; apply H, in_or_app; now right.
Qed.

Lemma scan_platform_sound W plat items r :
  scan_platform W plat items = Some r ->
  exists c,
    In c (List.concat (map snd items))
    /\ ((isabs W c && path_exists W c = true /\ r = c)
        \/ (which W c = Some r /\ str_truthy r = true)).
Proof.
  induction items as [| [plat_key candidates] rest IH]; [discriminate |].
  simpl; destruct (startswith plat plat_key).
  - destruct (scan_candidates W candidates) as [r' |] eqn:S.
    + intros [= <-]; destruct (scan_candidates_sound _ _ _ S) as (c & Hin & H).
      exists c; split; [apply in_or_app; now left | exact H].
    + intros E; destruct (IH E) as (c & Hin & H).
      exists c; split; [apply in_or_app; now right | exact H].
  - intros E; destruct (IH E) as (c & Hin & H).
    exists c; split; [apply in_or_app; now right | exact H].
Qed.

(** X9.  [find_executable_for_key] answers from the table only, and it
    answers whenever the table allows.  A command it returns is one of
    the candidates listed for the key, found as an absolute existing
    path, or what the PATH search gave for such a candidate.  It returns
    [None] exactly when no candidate of any platform group resolves
    either way; in particular for a key that the table does not
    contain, whatever is installed. *)
Theorem find_executable_answers_from_table :
  forall cfg W key,
    (forall r,
        find_executable_for_key cfg W key = Some r ->
        exists c,
          In c (all_candidates cfg key)
          /\ ((isabs W c && path_exists W c = true /\ r = c)
              \/ (which W c = Some r /\ str_truthy r = true)))
    /\ (find_executable_for_key cfg W key = None
        <-> forall c, In c (all_candidates cfg key) ->
                      isabs W c && path_exists W c = false
                      /\ opt_truthy (which W c) = false)
    /\ ((forall groups, ~ In (key, groups) (PROGRAM_LOOKUP cfg)) ->
        find_executable_for_key cfg W key = None).
Proof.
  intros cfg W key; unfold find_executable_for_key, all_candidates.
  set (lookup := dict_get String.eqb (PROGRAM_LOOKUP cfg) key []).
  split; [| split].
  - intros r; destruct (scan_platform W (sys_platform W) lookup) as [r' |] eqn:S.
    + intros [= <-]; now apply scan_platform_sound with (sys_platform W).
    + apply scan_all_sound.
  - destruct (scan_platform W (sys_platform W) lookup) as [r' |] eqn:S.
    + split; [discriminate |].
      intros H; destruct (scan_platform_sound _ _ _ _ S) as (c & Hin & Hc).
      destruct (H c Hin) as [Ha Hw].
      destruct Hc as [[Hc _] | [Hc Ht]]; [congruence |].
      rewrite Hc in Hw; simpl in Hw; congruence.
    + apply scan_all_none.
  - intros Hk.
    assert (E : lookup = []).
    { subst lookup; induction (PROGRAM_LOOKUP cfg) as [| [k g] rest IH];
        [reflexivity |].
      simpl; destruct (String.eqb_spec k key) as [-> | _].
      - destruct (Hk g); now left.
      - apply IH; intros g' Hin; apply (Hk g'); now right. }
    now rewrite E.
Qed.

Lemma find_executable_answers_from_table_witness :
  (forall groups, ~ In ("firefox", groups)
                       (PROGRAM_LOOKUP (source_config linux_world)))
  /\ find_executable_for_key (source_config linux_world) linux_world "firefox"
     = None
  /\ exists c,
       In c (all_candidates (source_config linux_world) "code")
       /\ ((isabs linux_world c && path_exists linux_world c = true
            /\ "/usr/bin/code" = c)
           \/ (which linux_world c = Some "/usr/bin/code"
               /\ str_truthy "/usr/bin/code" = true)).
Proof.
  assert (N : forall groups, ~ In ("firefox", groups)
                                  (PROGRAM_LOOKUP (source_config linux_world))).
  { intros groups; simpl; intuition discriminate. }
  split; [exact N |]; split.
  - apply (proj2 (proj2 (find_executable_answers_from_table
                           (source_config linux_world) linux_world "firefox"))
             N).
  - apply (proj1 (find_executable_answers_from_table
                    (source_config linux_world) linux_world "code")
             "/usr/bin/code").
    reflexivity.
Defined.

(** ** More on finger counting *)

(** X10.  Only ten readings of the landmark list matter.  Two lists of
    landmark objects, of any lengths, that agree on the [x] of landmarks
    4 and 3 and on the [y] of landmarks 8, 12, 16, 20 and 6, 10, 14, 18
    give the same count and the same vector, for every label. *)
Theorem fingers_depend_on_ten_readings :
  forall W l1 l2 hand_label,
    Forall has_coords l1 ->
    Forall has_coords l2 ->
    same_readings l1 l2 ->
    count_fingers_from_landmarks W l1 hand_label
    = count_fingers_from_landmarks W l2 hand_label.
Proof.
  intros W l1 l2 hand_label C1 C2 (H4 & H3 & Hy).
  rewrite (count_fingers_on_coords W l1 hand_label C1),
    (count_fingers_on_coords W l2 hand_label C2).
  assert (E : fingers_of W (map coords l1) hand_label
              = fingers_of W (map coords l2) hand_label).
  { unfold fingers_of; cbn [map].
    rewrite (thumb_try_readings W l1 C1), (thumb_try_readings W l2 C2).
    rewrite !(finger_try_readings W l1 C1), !(finger_try_readings W l2 C2).
    rewrite H4, H3.
    destruct (Hy 1%nat) as [-> ->]; [lia |].
    destruct (Hy 2%nat) as [-> ->]; [lia |].
    destruct (Hy 3%nat) as [-> ->]; [lia |].
    destruct (Hy 4%nat) as [-> ->]; [lia |].
    reflexivity. }
  now rewrite E.
Qed.

Lemma fingers_depend_on_ten_readings_witness :
  count_fingers_from_landmarks linux_world partial_hand (Some "Right")
  = count_fingers_from_landmarks linux_world
      (partial_hand ++ [Landmark (Num 0.9) (Num 0.1)]) (Some "Right").
Proof.
  apply fingers_depend_on_ten_readings.
  - repeat constructor; discriminate.
  - repeat constructor; discriminate.
  - split; [reflexivity | split; [reflexivity |]].
    intros k Hk; destruct k as [| [| [| [| [| k]]]]]; try lia;
      split; reflexivity.
Defined.

(** X12.  The label is only tested against ["Right"].  A missing label
    counts as ["Right"], and every other label, whatever its spelling,
    is handled like ["Left"]. *)
Theorem label_other_than_right_is_left :
  forall W hand_landmarks,
    count_fingers_from_landmarks W hand_landmarks None
    = count_fingers_from_landmarks W hand_landmarks (Some "Right")
    /\ forall hand_label,
        hand_label <> "Right" ->
        count_fingers_from_landmarks W hand_landmarks (Some hand_label)
        = count_fingers_from_landmarks W hand_landmarks (Some "Left").
Proof.
  intros W l; split; [reflexivity |].
  intros lbl N; unfold count_fingers_from_landmarks.
  destruct (to_pairs l) as [lm | e]; [| reflexivity].
  assert (F : fingers_of W lm (Some lbl) = fingers_of W lm (Some "Left")).
  { unfold fingers_of, thumb_try; apply String.eqb_neq in N; now rewrite N. }
  now rewrite F.
Qed.

Lemma label_other_than_right_is_left_witness :
  "right" <> "Right"
  /\ count_fingers_from_landmarks linux_world partial_hand (Some "right")
     = count_fingers_from_landmarks linux_world partial_hand (Some "Left").
Proof.
  assert (N : "right" <> "Right") by discriminate.
  split; [exact N |].
  apply (proj2 (label_other_than_right_is_left linux_world partial_hand)
           "right" N).
Defined.

Lemma sum_fingers_range W lm hand_label :
  0 <= sum (fingers_of W lm hand_label) <= 5.
Proof.
  unfold fingers_of, sum; cbn [map fold_left].
  pose proof (or_zero_thumb_range W lm hand_label).
  pose proof (or_zero_finger_range W lm 1).
  pose proof (or_zero_finger_range W lm 2).
  pose proof (or_zero_finger_range W lm 3).
  pose proof (or_zero_finger_range W lm 4).
  lia.
Qed.

Lemma tick_call_is_mapping cfg W count now s r log m :
  tick cfg W count now s [] = (r, log) ->
  In (EvCall m) log ->
  exists c, count = Some c /\ m = mapping_of cfg c.
Proof.
  intros T Hin; pose proof (tick_cases cfg W count now s []) as O.
  rewrite T in O; unfold mapping_of.
  assert (Hd : forall d, no_marks d -> ~ In (EvCall m) d).
  { intros d Hd Hi; apply (proj1 (Forall_forall _ _) Hd) in Hi; discriminate. }
  inversion O as [ _ | c m0 e d Ec _ Em _ Hm
                 | c m0 v d Ec _ Em _ Hm _
                 | c m0 v d d' Ec _ Em _ Hm Hm' _ ]; subst;
    simpl in Hin; [destruct Hin | | |]; exists c; (split; [reflexivity |]).
  - destruct Hin as [[= <-] | Hin]; [reflexivity | now apply Hd in Hin].
  - destruct Hin as [[= <-] | Hin]; [reflexivity |].
    apply in_app_or in Hin; destruct Hin as [Hin | [Hin | []]];
      [now apply Hd in Hin | discriminate].
  - destruct Hin as [[= <-] | Hin]; [reflexivity |].
    apply in_app_or in Hin; destruct Hin as [Hin | [Hin | Hin]];
      [now apply Hd in Hin | discriminate | now apply Hd in Hin].
Qed.

(** X13.  Extraction and dispatch composed: an iteration on a detected
    hand looks up the action of the extracted count, and that count lies
    between 0 and 5.  Entries of [APP_MAPPING] under any other key are
    never dispatched. *)
Theorem only_counts_0_to_5_are_dispatched :
  forall cfg W hand_landmarks hand_label now s r log m,
    main_step cfg W (Hand hand_landmarks hand_label) now s [] = (r, log) ->
    In (EvCall m) log ->
    exists k fingers,
      count_fingers_from_landmarks W hand_landmarks hand_label
      = Return (k, fingers)
      /\ 0 <= k <= 5
      /\ m = mapping_of cfg k.
Proof.
  intros cfg W l lbl now s r log m H Hin.
  unfold main_step in H.
  destruct (count_fingers_from_landmarks W l lbl) as [[k fingers] | e] eqn:E.
  - destruct (tick_call_is_mapping _ _ _ _ _ _ _ _ H Hin) as (c & [= <-] & ->).
    exists k, fingers; split; [reflexivity | split; [| reflexivity]].
    assert (C : Forall has_coords l).
    { unfold count_fingers_from_landmarks in E.
      destruct (to_pairs l) as [lm | e] eqn:P; [| discriminate].
      now apply to_pairs_returns with lm. }
    rewrite (count_fingers_on_coords W l lbl C) in E.
    injection E as <- _; apply sum_fingers_range.
  - injection H as _ <-; destruct Hin.
Qed.

Lemma only_counts_0_to_5_are_dispatched_witness :
  main_step (source_config linux_world) linux_world
    (Hand partial_hand (Some "Right")) 13 held_state []
  = (Return {| last_trigger_time := 13;
               stable_counter := 7;
               last_count := Some 3 |},
     [EvCall ("open_program", Some "code");
      EvPopen ["/usr/bin/code"] true;
      EvRet (PyBool true)])
  /\ exists k fingers,
       count_fingers_from_landmarks linux_world partial_hand (Some "Right")
       = Return (k, fingers)
       /\ 0 <= k <= 5
       /\ ("open_program", Some "code")
          = mapping_of (source_config linux_world) k.
Proof.
  split; [reflexivity |].
  apply (only_counts_0_to_5_are_dispatched (source_config linux_world)
           linux_world partial_hand (Some "Right") 13%Q held_state
           (Return {| last_trigger_time := 13;
                      stable_counter := 7;
                      last_count := Some 3 |})
           [EvCall ("open_program", Some "code");
            EvPopen ["/usr/bin/code"] true;
            EvRet (PyBool true)]).
  - reflexivity.
  - simpl; tauto.
Defined.

(** ** Leaving the loop *)

(** X14.  The loop tests the low byte of the value of [cv2.waitKey]:
    it leaves on the key [q] exactly when that value is congruent to
    113 modulo 256, so higher bits set by the window system do not
    matter. *)
Theorem quit_tests_the_low_byte :
  forall waitKey, quit_pressed waitKey = true <-> waitKey mod 256 = 113.
Proof.
  intros k; unfold quit_pressed, ord_q; rewrite Z.eqb_eq.
  change 255 with (Z.ones 8); rewrite Z.land_ones by lia.
  reflexivity.
Qed.

Lemma main_loop_ended cfg caps : forall more s,
  exit_by (main_loop cfg caps s) <> StillRunning ->
  main_loop cfg (caps ++ more) s = main_loop cfg caps s.
Proof.
  induction caps as [| c rest IH]; intros more s H; [now destruct H |].
  cbn [main_loop app] in *.
  destruct (negb (c_ret c)); [reflexivity |].
  destruct (main_step cfg (c_world c) (c_frame c) (c_now c) s [])
    as [[s' | e] log]; [| reflexivity].
  destruct (quit_pressed (c_waitKey c)); [reflexivity |].
  cbn [exit_by] in H; now rewrite (IH more s' H).
Qed.

Lemma main_loop_running cfg caps : forall s,
  exit_by (main_loop cfg caps s) = StillRunning ->
  exists ticks,
    ticks_of caps = Some ticks
    /\ run cfg ticks s
       = (Return (final_state (main_loop cfg caps s)),
          logs (main_loop cfg caps s))
    /\ Forall (fun c => c_ret c = true
                        /\ quit_pressed (c_waitKey c) = false) caps
    /\ List.length (hud (main_loop cfg caps s)) = List.length caps.
Proof.
  induction caps as [| c rest IH]; intros s H.
  - exists []; repeat split; constructor.
  - cbn [main_loop] in *.
    destruct (c_ret c) eqn:R; cbn [negb] in *; [| discriminate].
    rewrite main_step_tick in *.
    destruct (count_of_frame (c_world c) (c_frame c)) as [count |] eqn:F;
      [| discriminate].
    destruct (tick cfg (c_world c) count (c_now c) s []) as [[s' | e] log] eqn:T;
      [| discriminate].
    destruct (quit_pressed (c_waitKey c)) eqn:Q; [discriminate |].
    cbn [exit_by final_state logs hud] in *.
    destruct (IH s' H) as (ticks & Ht & Hr & Hf & Hl).
    exists ((c_world c, count, c_now c) :: ticks).
    cbn [ticks_of run List.length]; rewrite F, Ht, T, Hr, Hl.
    repeat split; now constructor.
Qed.

(** X15.  Once the loop is left nothing more is read or dispatched: if
    the loop has ended on some captures (failed read, key [q], or an
    exception), its result is the same whatever captures would follow.
    As long as it has not ended, every read succeeded, no [q] was
    pressed, one HUD value was drawn per frame, and state and logs are
    those of the loop body run over the extracted counts. *)
Theorem loop_exit_is_final :
  (forall cfg caps more s,
      exit_by (main_loop cfg caps s) <> StillRunning ->
      main_loop cfg (caps ++ more) s = main_loop cfg caps s)
  /\ (forall cfg caps s,
         exit_by (main_loop cfg caps s) = StillRunning ->
         exists ticks,
           ticks_of caps = Some ticks
           /\ run cfg ticks s
              = (Return (final_state (main_loop cfg caps s)),
                 logs (main_loop cfg caps s))
           /\ Forall (fun c => c_ret c = true
                               /\ quit_pressed (c_waitKey c) = false) caps
           /\ List.length (hud (main_loop cfg caps s)) = List.length caps).
Proof.
  split; [exact main_loop_ended | exact main_loop_running].
Qed.

Lemma loop_exit_is_final_witness :
  exit_by (main_loop (source_config linux_world)
             [hold_capture; quit_capture] held_state) <> StillRunning
  /\ main_loop (source_config linux_world)
       ([hold_capture; quit_capture] ++ [hold_capture]) held_state
     = main_loop (source_config linux_world)
         [hold_capture; quit_capture] held_state
  /\ exit_by (main_loop (source_config linux_world) [hold_capture] held_state)
     = StillRunning
  /\ exists ticks,
       ticks_of [hold_capture] = Some ticks
       /\ run (source_config linux_world) ticks held_state
          = (Return (final_state
                       (main_loop (source_config linux_world)
                          [hold_capture] held_state)),
             logs (main_loop (source_config linux_world)
                     [hold_capture] held_state))
       /\ Forall (fun c => c_ret c = true
                           /\ quit_pressed (c_waitKey c) = false)
            [hold_capture]
       /\ List.length
            (hud (main_loop (source_config linux_world)
                    [hold_capture] held_state))
          = List.length [hold_capture].
Proof.
  assert (N : exit_by (main_loop (source_config linux_world)
                         [hold_capture; quit_capture] held_state)
              <> StillRunning) by (vm_compute; discriminate).
  split; [exact N |]; split.
  - apply (proj1 loop_exit_is_final _ _ _ _ N).
  - split; [reflexivity |].
    apply (proj2 loop_exit_is_final (source_config linux_world)
             [hold_capture] held_state).
    reflexivity.
Defined.

(** ** From a new count to its first dispatch *)

Lemma guard_fires cfg W c now s :
  guard cfg (Some c) now s = true ->
  dispatched (snd (tick cfg W (Some c) now s [])).
Proof.
  intros G; pose proof (tick_cases cfg W (Some c) now s []) as O.
  destruct (tick cfg W (Some c) now s []) as [r log].
  inversion O; subst;
    try match goal with H : _ \/ _ |- _ => destruct H; congruence end;
    eexists; simpl; left; reflexivity.
Qed.

Lemma map_count_of_repeat c ticks :
  Forall (fun t => count_of t = Some c) ticks ->
  map count_of ticks = repeat (Some c) (List.length ticks).
Proof.
  induction 1 as [| t rest Ht _ IH]; [reflexivity |].
  simpl; now rewrite Ht, IH.
Qed.

(** X16.  The first dispatch of a new count comes exactly at its frame
    number [STABLE_FRAMES].  Starting where another count (or none) is
    remembered, the first [STABLE_FRAMES - 1] frames showing the count do
    nothing at all, whatever the clock; the next frame showing it
    dispatches, provided the cooldown has passed at that frame. *)
Theorem first_dispatch_at_stable_frames :
  forall cfg W c s ticks now,
    last_count s <> Some c ->
    Forall (fun t => count_of t = Some c) ticks ->
    Z.of_nat (List.length ticks) + 1 = STABLE_FRAMES cfg ->
    (COOLDOWN_SECONDS cfg <= now - last_trigger_time s)%Q ->
    exists s1,
      run cfg ticks s = (Return s1, map (fun _ => []) ticks)
      /\ last_trigger_time s1 = last_trigger_time s
      /\ dispatched (snd (tick cfg W (Some c) now s1 [])).
Proof.
  intros cfg W c s ticks now Hl Hc Hn Hq.
  destruct ticks as [| [[W0 count0] now0] rest].
  - exists s; split; [reflexivity | split; [reflexivity |]].
    apply guard_fires, guard_iff; split; [| exact Hq].
    rewrite (debounce_other _ _ Hl); simpl in *; lia.
  - inversion Hc as [| t ts Ht Hrest]; subst.
    unfold count_of in Ht; simpl in Ht; subst count0.
    cbn [List.length] in Hn; rewrite Nat2Z.inj_succ in Hn.
    set (s0 := debounce (Some c) s).
    assert (E0 : stable_counter s0 = 1)
      by (subst s0; now rewrite (debounce_other _ _ Hl)).
    assert (U : is_stable cfg s0 = false) by (apply Z.leb_gt; lia).
    destruct (warm_up_run cfg rest s0) as (s1 & R & E); [lia | lia |].
    exists s1; cbn [run map].
    rewrite (unstable_tick _ _ _ _ _ U); fold s0; rewrite R.
    assert (T : last_trigger_time s1 = last_trigger_time s)
      by (rewrite E; apply debounce_time).
    split; [reflexivity | split; [exact T |]].
    destruct (run_feed _ _ _ _ _ R) as [Rc Rl].
    rewrite (map_count_of_repeat c rest Hrest) in Rc, Rl.
    rewrite (feed_held s0 c (List.length rest) (debounce_last_count c s))
      in Rc, Rl.
    cbn [stable_counter last_count] in Rc, Rl.
    apply held_fires; [exact Rl | lia |].
    apply cooldown_passed_iff; now rewrite T.
Qed.

Lemma first_dispatch_at_stable_frames_witness :
  exists s1,
    run (source_config linux_world)
        [(linux_world, Some 3, 1%Q); (linux_world, Some 3, 2%Q);
         (linux_world, Some 3, 3%Q); (linux_world, Some 3, 4%Q);
         (linux_world, Some 3, 5%Q)] initial_state
    = (Return s1, [[]; []; []; []; []])
    /\ last_trigger_time s1 = last_trigger_time initial_state
    /\ dispatched
         (snd (tick (source_config linux_world) linux_world (Some 3) 6 s1 [])).
Proof.
  apply (first_dispatch_at_stable_frames (source_config linux_world)
           linux_world 3 initial_state
           [(linux_world, Some 3, 1%Q); (linux_world, Some 3, 2%Q);
            (linux_world, Some 3, 3%Q); (linux_world, Some 3, 4%Q);
            (linux_world, Some 3, 5%Q)] 6%Q).
  - simpl; discriminate.
  - repeat constructor.
  - reflexivity.
  - unfold Qle; simpl; lia.
Defined.
